(** * RISC-V VTYPE codec: llvm/lib/TargetParser/RISCVTargetParser.cpp

    A shallow embedding of namespace [llvm::RISCVVType]: the packing of
    (LMUL, SEW, ta, ma) into the VTYPE immediate, the decoding of the LMUL
    field, the textual rendering, and the SEW/LMUL ratio arithmetic.

    [unsigned] is a 32-bit machine integer, modelled as [Z] with the
    wrap-around written out.  [assert], [llvm_unreachable] and integer
    division by zero are modelled as the three failure outcomes of
    [result]. *)

From Stdlib Require Import ZArith QArith List String Ascii Bool Lia DecimalString.
From coqutil Require Import Z.bitblast.
Import ListNotations.

Local Open Scope Z_scope.

(** ** Outcomes of a call *)

Inductive result (A : Type) : Type :=
| Ok (a : A)
| AssertionFailed
| Unreachable
| DivisionByZero.

Arguments Ok {A} a.
Arguments AssertionFailed {A}.
Arguments Unreachable {A}.
Arguments DivisionByZero {A}.

Definition bind {A B : Type} (r : result A) (k : A -> result B) : result B :=
  match r with
  | Ok a => k a
  | AssertionFailed => AssertionFailed
  | Unreachable => Unreachable
  | DivisionByZero => DivisionByZero
  end.

Notation "x <- e ;; k" := (bind e (fun x => k))
  (at level 61, e at next level, right associativity).
Notation "' p <- e ;; k" := (bind e (fun p => k))
  (at level 61, p pattern, e at next level, right associativity).

Definition assert (b : bool) : result unit :=
  if b then Ok tt else AssertionFailed.

Definition returned {A : Type} (r : result A) : bool :=
  match r with Ok _ => true | _ => false end.

(** ** 32-bit unsigned arithmetic *)

Module U32.

Definition modulus : Z := 2 ^ 32.

Definition wrap (z : Z) : Z := z mod modulus.

Definition mul (a b : Z) : Z := wrap (a * b).

Definition sub (a b : Z) : Z := wrap (a - b).

Definition shl (a n : Z) : Z := wrap (Z.shiftl a n).

(** [a / b] on unsigned operands; undefined behaviour when [b] is zero. *)
Definition div (a b : Z) : result Z :=
  if b =? 0 then DivisionByZero else Ok (a / b).

End U32.

(** ** The LMUL enumeration *)

(** Modelled from the spec: [enum VLMUL] is declared in
    llvm/TargetParser/RISCVTargetParser.h, which is not part of the sources
    at hand.  The spec gives the codes: 0,1,2,3 for the multipliers 1,2,4,8,
    codes 5,6,7 for 1/8,1/4,1/2, and one reserved code. *)
Inductive VLMUL : Type :=
| LMUL_1
| LMUL_2
| LMUL_4
| LMUL_8
| LMUL_RESERVED
| LMUL_F8
| LMUL_F4
| LMUL_F2.

(** [static_cast<unsigned>(VLMul)] *)
Definition VLMUL_to_unsigned (l : VLMUL) : Z :=
  match l with
  | LMUL_1 => 0
  | LMUL_2 => 1
  | LMUL_4 => 2
  | LMUL_8 => 3
  | LMUL_RESERVED => 4
  | LMUL_F8 => 5
  | LMUL_F4 => 6
  | LMUL_F2 => 7
  end.

(** [static_cast<VLMUL>(c)].  The code only casts values of the three-bit
    field; a value outside it names no enumerator. *)
Definition VLMUL_of_unsigned (c : Z) : VLMUL :=
  match c with
  | 0 => LMUL_1
  | 1 => LMUL_2
  | 2 => LMUL_4
  | 3 => LMUL_8
  | 5 => LMUL_F8
  | 6 => LMUL_F4
  | 7 => LMUL_F2
  | _ => LMUL_RESERVED
  end.

Definition VLMUL_eqb (a b : VLMUL) : bool :=
  VLMUL_to_unsigned a =? VLMUL_to_unsigned b.

Definition allVLMUL : list VLMUL :=
  [LMUL_1; LMUL_2; LMUL_4; LMUL_8; LMUL_RESERVED; LMUL_F8; LMUL_F4; LMUL_F2].

(** The seven codes that name a multiplier. *)
Definition isLegalVLMUL (l : VLMUL) : bool :=
  match l with
  | LMUL_RESERVED => false
  | _ => true
  end.

(** ** Helpers of the header *)

(** Modelled from the spec: [isPowerOf2_32] and [Log2_32] of
    llvm/Support/MathExtras.h, which is not part of the sources at hand; the
    spec writes "power of two" and "log2". *)
Definition isPowerOf2_32 (v : Z) : bool :=
  (0 <? v) && (Z.land v (v - 1) =? 0).

Definition Log2_32 (v : Z) : Z := Z.log2 v.

(** Modelled from the spec: [isValidSEW] of RISCVTargetParser.h: "true iff
    sew is a power of two within the supported element-width range (8 to
    ... 64)". *)
Definition isValidSEW (SEW : Z) : bool :=
  isPowerOf2_32 SEW && (8 <=? SEW) && (SEW <=? 64).

(** Modelled from the spec: [encodeSEW] of RISCVTargetParser.h:
    "sewBits = log2(sew/8)". *)
Definition encodeSEW (SEW : Z) : Z := Log2_32 (SEW / 8).

(** Modelled from the spec: [isValidLMUL] of RISCVTargetParser.h: the pair
    "must be one of {1,2,4,8} or {1/2,1/4,1/8}". *)
Definition isValidLMUL (LMul : Z) (Fractional : bool) : bool :=
  isPowerOf2_32 LMul && (LMul <=? 8) && (negb Fractional || negb (LMul =? 1)).

(** Modelled from the spec: [encodeLMUL] of RISCVTargetParser.h: the code of
    a whole multiplier is its log2, the code of 1/d is 8 - log2 d. *)
Definition encodeLMUL (LMul : Z) (Fractional : bool) : VLMUL :=
  let LmulLog2 := Log2_32 LMul in
  VLMUL_of_unsigned (if Fractional then U32.sub 8 LmulLog2 else LmulLog2).

(** Modelled from the spec: the field accessors of RISCVTargetParser.h,
    after the layout "bits [2:0] = LMUL code, bits [5:3] = encoded SEW,
    bit [6] = tail-agnostic flag, bit [7] = mask-agnostic flag". *)
Definition getVLMUL (VType : Z) : VLMUL :=
  VLMUL_of_unsigned (Z.land VType 0x7).

Definition decodeVSEW (VSEW : Z) : Z := Z.shiftl 1 (VSEW + 3).

Definition getSEW (VType : Z) : Z :=
  decodeVSEW (Z.land (Z.shiftr VType 3) 0x7).

Definition isTailAgnostic (VType : Z) : bool :=
  negb (Z.land VType 0x40 =? 0).

Definition isMaskAgnostic (VType : Z) : bool :=
  negb (Z.land VType 0x80 =? 0).

(** ** The functions of RISCVTargetParser.cpp *)

Definition encodeVTYPE (VLMul : VLMUL) (SEW : Z)
    (TailAgnostic MaskAgnostic : bool) : result Z :=
  _ <- assert (isValidSEW SEW) ;;
  let VLMulBits := VLMUL_to_unsigned VLMul in
  let VSEWBits := encodeSEW SEW in
  let VTypeI := Z.lor (U32.shl VSEWBits 3) (Z.land VLMulBits 0x7) in
  let VTypeI := if TailAgnostic then Z.lor VTypeI 0x40 else VTypeI in
  let VTypeI := if MaskAgnostic then Z.lor VTypeI 0x80 else VTypeI in
  Ok VTypeI.

Definition encodeXSfmmVType (SEW Widen : Z) (AltFmt : bool) : result Z :=
  _ <- assert (isValidSEW SEW) ;;
  _ <- assert ((Widen =? 1) || (Widen =? 2) || (Widen =? 4)) ;;
  let VSEWBits := encodeSEW SEW in
  let TWiden := U32.wrap (Log2_32 Widen + 1) in
  let VTypeI :=
    Z.lor (Z.lor (U32.shl VSEWBits 3) (Z.shiftl (Z.b2z AltFmt) 8))
          (U32.shl TWiden 9) in
  Ok VTypeI.

Definition decodeVLMUL (VLMul : VLMUL) : result (Z * bool) :=
  match VLMul with
  | LMUL_1 | LMUL_2 | LMUL_4 | LMUL_8 =>
      Ok (Z.shiftl 1 (VLMUL_to_unsigned VLMul), false)
  | LMUL_F2 | LMUL_F4 | LMUL_F8 =>
      Ok (Z.shiftl 1 (U32.sub 8 (VLMUL_to_unsigned VLMul)), true)
  | _ => Unreachable
  end.

(** [OS << n] for an unsigned [n]: its decimal digits. *)
Definition print_unsigned (n : Z) : string :=
  NilZero.string_of_uint (N.to_uint (Z.to_N n)).

(** The stream is the text written so far; [OS << s] appends. *)
Definition printVType (VType : Z) (OS : string) : result string :=
  let Sew := getSEW VType in
  let OS := (OS ++ "e" ++ print_unsigned Sew)%string in
  '(LMul, Fractional) <- decodeVLMUL (getVLMUL VType) ;;
  let OS := if Fractional then (OS ++ ", mf")%string else (OS ++ ", m")%string in
  let OS := (OS ++ print_unsigned LMul)%string in
  let OS := if isTailAgnostic VType then (OS ++ ", ta")%string
            else (OS ++ ", tu")%string in
  let OS := if isMaskAgnostic VType then (OS ++ ", ma")%string
            else (OS ++ ", mu")%string in
  Ok OS.

Definition getSEWLMULRatio (SEW : Z) (VLMul : VLMUL) : result Z :=
  '(LMul, Fractional) <- decodeVLMUL VLMul ;;
  LMul <- (if Fractional : bool then U32.div 8 LMul
           else Ok (U32.mul LMul 8)) ;;
  _ <- assert (8 <=? SEW) ;;
  U32.div (U32.mul SEW 8) LMul.

Definition getSameRatioLMUL (SEW : Z) (VLMul : VLMUL) (EEW : Z)
    : result (option VLMUL) :=
  Ratio <- getSEWLMULRatio SEW VLMul ;;
  EMULFixedPoint <- U32.div (U32.mul EEW 8) Ratio ;;
  let Fractional := EMULFixedPoint <? 8 in
  EMUL <- (if Fractional then U32.div 8 EMULFixedPoint
           else U32.div EMULFixedPoint 8) ;;
  if negb (isValidLMUL EMUL Fractional) then Ok None
  else Ok (Some (encodeLMUL EMUL Fractional)).

(** The multiplier that the pair returned by [decodeVLMUL] denotes: [m] for
    a whole LMUL, [1/m] for a fractional one. *)
Definition multiplier (l : VLMUL) : option Q :=
  match decodeVLMUL l with
  | Ok (m, f) => Some (if f : bool then (1 / inject_Z m)%Q else inject_Z m)
  | _ => None
  end.

Definition result_Z_eqb (a b : result Z) : bool :=
  match a, b with
  | Ok x, Ok y => x =? y
  | AssertionFailed, AssertionFailed => true
  | Unreachable, Unreachable => true
  | DivisionByZero, DivisionByZero => true
  | _, _ => false
  end.

(** What an outcome of [getSameRatioLMUL] is checked against: a returned
    LMUL is legal, has the ratio of the inputs at the new width, and at an
    unchanged width is the input LMUL; no assertion fails and no
    unreachable is hit. *)
Definition sameRatio_ok (SEW : Z) (l : VLMUL) (EEW : Z) : bool :=
  match getSameRatioLMUL SEW l EEW with
  | Ok (Some L) =>
      isLegalVLMUL L
      && returned (getSEWLMULRatio SEW l)
      && result_Z_eqb (getSEWLMULRatio EEW L) (getSEWLMULRatio SEW l)
      && implb (EEW =? SEW) (VLMUL_eqb L l)
  | Ok None | DivisionByZero => true
  | AssertionFailed | Unreachable => false
  end.

(** ** Finite case analysis *)

Definition validSEWs : list Z := [8; 16; 32; 64].

Definition legalVLMULs : list VLMUL :=
  [LMUL_1; LMUL_2; LMUL_4; LMUL_8; LMUL_F8; LMUL_F4; LMUL_F2].

(** ** The CPU table functions of namespace RISCV *)

Module RISCV.

(** The three identification registers of a CPU, as the initialiser
    [{MVENDORID, MARCHID, MIMPID}] fills them. *)
Record CPUModel : Type := {
  MVendorID : Z;
  MArchID : Z;
  MImpID : Z
}.

(** An entry of the table, as the initialiser of [RISCVCPUInfo] fills it. *)
Record CPUInfo : Type := {
  Name : string;
  DefaultMarch : string;
  FastScalarUnalignedAccess : bool;
  FastVectorUnalignedAccess : bool;
  Model : CPUModel
}.

(** [F.substr(1)]: the string without its first character; on the empty
    string the position is past the end and the call does not return. *)
Definition substr1 (F : string) : option string :=
  match F with
  | EmptyString => None
  | String _ rest => Some rest
  end.

Section CPUTable.

(** The table and the tune-only names come from RISCVTargetParserDef.inc,
    and [is64Bit], [isValid] and [operator==] from RISCVTargetParser.h;
    neither file is among the sources, so they are parameters. *)
Variable RISCVCPUInfo : list CPUInfo.
Variable TuneProcs : list string.
Variable is64Bit : CPUInfo -> bool.
Variable isValid : CPUModel -> bool.
Variable CPUModel_eq : CPUModel -> CPUModel -> bool.

(** [RISCVISAInfo] and its two entry points, also outside the sources:
    [parseArchString] returns nothing on a parse error. *)
Variable RISCVISAInfo : Type.
Variable parseArchString : string -> bool -> option RISCVISAInfo.
Variable toFeatures : RISCVISAInfo -> bool -> list string.

Definition getCPUInfoByName (CPU : string) : option CPUInfo :=
  find (fun C => String.eqb (Name C) CPU) RISCVCPUInfo.

Definition hasFastScalarUnalignedAccess (CPU : string) : bool :=
  match getCPUInfoByName CPU with
  | Some Info => FastScalarUnalignedAccess Info
  | None => false
  end.

Definition hasFastVectorUnalignedAccess (CPU : string) : bool :=
  match getCPUInfoByName CPU with
  | Some Info => FastVectorUnalignedAccess Info
  | None => false
  end.

Definition getCPUModel (CPU : string) : CPUModel :=
  match getCPUInfoByName CPU with
  | None => {| MVendorID := 0; MArchID := 0; MImpID := 0 |}
  | Some Info => Model Info
  end.

Definition hasValidCPUModel (CPU : string) : bool :=
  isValid (getCPUModel CPU).

Definition getCPUNameFromCPUModel (M : CPUModel) : string :=
  if negb (isValid M) then ""%string
  else
    match find (fun C => CPUModel_eq (Model C) M) RISCVCPUInfo with
    | Some C => Name C
    | None => ""%string
    end.

Definition parseCPU (CPU : string) (IsRV64 : bool) : bool :=
  match getCPUInfoByName CPU with
  | None => false
  | Some Info => Bool.eqb (is64Bit Info) IsRV64
  end.

(** The StringSwitch has one case per tune-only name; [Kind] has a value
    when one of them is [TuneCPU]. *)
Definition parseTuneCPU (TuneCPU : string) (IsRV64 : bool) : bool :=
  let Kind := find (String.eqb TuneCPU) TuneProcs in
  match Kind with
  | Some _ => true
  | None => parseCPU TuneCPU IsRV64
  end.

Definition getMArchFromMcpu (CPU : string) : string :=
  match getCPUInfoByName CPU with
  | None => ""%string
  | Some Info => DefaultMarch Info
  end.

(** The loops run over the table in order; [emplace_back] appends. *)
Definition fillValidCPUArchList (Values : list string) (IsRV64 : bool)
    : list string :=
  fold_left
    (fun Values C =>
       if Bool.eqb IsRV64 (is64Bit C) then Values ++ [Name C] else Values)
    RISCVCPUInfo Values.

Definition fillValidTuneCPUArchList (Values : list string) (IsRV64 : bool)
    : list string :=
  let Values :=
    fold_left
      (fun Values C =>
         if Bool.eqb IsRV64 (is64Bit C) then Values ++ [Name C] else Values)
      RISCVCPUInfo Values in
  fold_left (fun Values NAME => Values ++ [NAME]) TuneProcs Values.

(** [EnabledFeatures] is passed in and handed back; nothing is handed back
    when [substr] is called past the end of a feature string. *)
Definition getFeaturesForCPU (CPU : string) (EnabledFeatures : list string)
    (NeedPlus : bool) : option (list string) :=
  let MarchFromCPU := getMArchFromMcpu CPU in
  if String.eqb MarchFromCPU "" then Some EnabledFeatures
  else
    let EnabledFeatures := @nil string in
    match parseArchString MarchFromCPU true with
    | None => Some EnabledFeatures
    | Some RII =>
        let FeatStrings := toFeatures RII false in
        fold_left
          (fun acc F =>
             match acc with
             | None => None
             | Some EnabledFeatures =>
                 if NeedPlus then Some (EnabledFeatures ++ [F])
                 else option_map (fun t => EnabledFeatures ++ [t]) (substr1 F)
             end)
          FeatStrings (Some EnabledFeatures)
    end.

End CPUTable.

End RISCV.

(** A small table in the shape of RISCVTargetParserDef.inc, with the header
    functions as LLVM writes them, on which the statements about the table
    are exercised. *)
Module SampleTable.

Definition cpus : list RISCV.CPUInfo :=
  [ {| RISCV.Name := "generic-rv32"; RISCV.DefaultMarch := "rv32i";
       RISCV.FastScalarUnalignedAccess := false;
       RISCV.FastVectorUnalignedAccess := false;
       RISCV.Model :=
         {| RISCV.MVendorID := 0; RISCV.MArchID := 0; RISCV.MImpID := 0 |} |};
    {| RISCV.Name := "generic-rv64"; RISCV.DefaultMarch := "rv64i";
       RISCV.FastScalarUnalignedAccess := false;
       RISCV.FastVectorUnalignedAccess := false;
       RISCV.Model :=
         {| RISCV.MVendorID := 0; RISCV.MArchID := 0; RISCV.MImpID := 0 |} |};
    {| RISCV.Name := "vendor-x1"; RISCV.DefaultMarch := "rv64imac";
       RISCV.FastScalarUnalignedAccess := true;
       RISCV.FastVectorUnalignedAccess := true;
       RISCV.Model :=
         {| RISCV.MVendorID := 0x489; RISCV.MArchID := 0x8000000000000007;
            RISCV.MImpID := 0x20181004 |} |} ].

Definition tunes : list string := ["generic"; "rocket"]%string.

Definition is64Bit (C : RISCV.CPUInfo) : bool :=
  String.prefix "rv64" (RISCV.DefaultMarch C).

Definition isValid (M : RISCV.CPUModel) : bool :=
  negb (RISCV.MVendorID M =? 0) && negb (RISCV.MArchID M =? 0)
  && negb (RISCV.MImpID M =? 0).

Definition CPUModel_eq (a b : RISCV.CPUModel) : bool :=
  (RISCV.MVendorID a =? RISCV.MVendorID b)
  && (RISCV.MArchID a =? RISCV.MArchID b)
  && (RISCV.MImpID a =? RISCV.MImpID b).

Definition parseArchString (Arch : string) (_ : bool) : option (list string) :=
  if String.eqb Arch "rv64imac" then Some ["+m"; "+a"; "+c"]%string else None.

Definition toFeatures (RII : list string) (_ : bool) : list string := RII.

End SampleTable.

(** ** The x86_64 floating-point environment (x86_64/FEnvImpl.h) *)

Module FEnv.

(** Conversions to [uint16_t] and [uint32_t]. *)
Definition uint16 (z : Z) : Z := z mod 2 ^ 16.

Definition uint32 (z : Z) : Z := z mod 2 ^ 32.

(** An integer used as a condition. *)
Definition nonzero (z : Z) : bool := negb (z =? 0).

Module RoundingControlValue.
Definition TO_NEAREST : Z := 0x0.
Definition DOWNWARD : Z := 0x1.
Definition UPWARD : Z := 0x2.
Definition TOWARD_ZERO : Z := 0x3.
End RoundingControlValue.

Definition X87_ROUNDING_CONTROL_BIT_POSITION : Z := 10.

Definition MXCSR_ROUNDING_CONTROL_BIT_POSITION : Z := 13.

Module ExceptionFlags.
Definition INVALID_F : Z := 0x1.
Definition DENORMAL_F : Z := 0x2.
Definition DIV_BY_ZERO_F : Z := 0x4.
Definition OVERFLOW_F : Z := 0x8.
Definition UNDERFLOW_F : Z := 0x10.
Definition INEXACT_F : Z := 0x20.
End ExceptionFlags.

Definition MXCSR_EXCEPTION_CONTOL_BIT_POISTION : Z := 7.

Record X87StateDescriptor : Type := {
  control_word : Z;
  unused1 : Z;
  status_word : Z;
  unused2 : Z;
  rest : list Z
}.

(** What a call comes to: it returns, or a waiting x87 instruction finds an
    unmasked exception pending and raises the floating-point exception
    (#MF, delivered to the process as SIGFPE). *)
Inductive outcome (A : Type) : Type :=
| Returns (a : A)
| FloatingPointException.

Arguments Returns {A} a.
Arguments FloatingPointException {A}.

(** The registers the inline assembly reads and writes: the x87
    environment (the 28 bytes that fnstenv stores, of which the control
    and status words are the first fields) and MXCSR.  Bits 7 and 15 of
    the status word held here are of no account: the processor computes
    them, see [x87_status_word]. *)
Record Machine : Type := {
  X87 : X87StateDescriptor;
  MXCSR : Z
}.

Definition with_control_word (w : Z) (s : X87StateDescriptor)
    : X87StateDescriptor :=
  {| control_word := w; unused1 := unused1 s; status_word := status_word s;
     unused2 := unused2 s; rest := rest s |}.

Definition with_status_word (w : Z) (s : X87StateDescriptor)
    : X87StateDescriptor :=
  {| control_word := control_word s; unused1 := unused1 s; status_word := w;
     unused2 := unused2 s; rest := rest s |}.

Definition with_rest (r : list Z) (s : X87StateDescriptor)
    : X87StateDescriptor :=
  {| control_word := control_word s; unused1 := unused1 s;
     status_word := status_word s; unused2 := unused2 s; rest := r |}.

(** An x87 exception is pending when its flag is set in the status word
    while its mask bit in the control word is clear. *)
Definition x87_exception_pending (m : Machine) : bool :=
  nonzero
    (Z.land (Z.land (status_word (X87 m)) (Z.lnot (control_word (X87 m))))
       0x3F).

(** The status word as the processor shows it: bit 7 (exception summary)
    and bit 15 (busy) are both set when an exception is pending and both
    clear otherwise, whatever has been loaded into them. *)
Definition x87_status_word (m : Machine) : Z :=
  if x87_exception_pending m
  then Z.lor (status_word (X87 m)) 0x8080
  else Z.land (status_word (X87 m)) (Z.lnot 0x8080).

(** fnstcw *)
Definition get_x87_control_word (m : Machine) : Z := control_word (X87 m).

(** fldcw, a waiting instruction: with an exception pending it raises the
    floating-point exception instead of loading the control word. *)
Definition write_x87_control_word (w : Z) (m : Machine) : outcome Machine :=
  if x87_exception_pending m then FloatingPointException
  else Returns {| X87 := with_control_word w (X87 m); MXCSR := MXCSR m |}.

(** fnstsw *)
Definition get_x87_status_word (m : Machine) : Z := x87_status_word m.

(** stmxcsr *)
Definition get_mxcsr (m : Machine) : Z := MXCSR m.

(** ldmxcsr *)
Definition write_mxcsr (w : Z) (m : Machine) : Machine :=
  {| X87 := X87 m; MXCSR := w |}.

(** fnstenv: stores the environment and then masks all x87 exceptions in
    the control word, after which none is pending. *)
Definition get_x87_state_descriptor (m : Machine)
    : X87StateDescriptor * Machine :=
  (with_status_word (x87_status_word m) (X87 m),
   {| X87 := with_control_word (Z.lor (control_word (X87 m)) 0x3F) (X87 m);
      MXCSR := MXCSR m |}).

(** [struct FPState] of the targets that are neither Windows nor macOS. *)
Record FPState : Type := {
  x87_status : X87StateDescriptor;
  mxcsr : Z
}.

(** A [const fenv_t *]: the default-environment constant or the address of
    a saved state. *)
Inductive fenv_ptr : Type :=
| FE_DFL_ENV
| fenv_at (state : FPState).

Section Target.

(** [fldenv_image s] is the environment as fnstenv would store it once
    fldenv has loaded [s].  Of it the model takes the fields to which this
    code gives no name, as these are not read back as they were written:
    the reserved halves, the tag word, which the processor recomputes from
    the contents of the registers, and the instruction and operand
    pointers. *)
Variable fldenv_image : X87StateDescriptor -> X87StateDescriptor.

(** fldenv: loads the control word and the status word of the image.  In
    every function below it follows fnstenv, so that no exception is
    pending when it executes; an exception that the loaded words leave
    pending is raised by the next waiting instruction. *)
Definition write_x87_state_descriptor (s : X87StateDescriptor) (m : Machine)
    : Machine :=
  {| X87 :=
       with_status_word (status_word s)
         (with_control_word (control_word s) (fldenv_image s));
     MXCSR := MXCSR m |}.

(** The FE_* macros come from the C library's fenv.h; __FE_DENORM is
    defined by some libraries only. *)
Variables FE_INVALID FE_DIVBYZERO FE_OVERFLOW FE_UNDERFLOW FE_INEXACT : Z.
Variable FE_DENORM : option Z.
Variables FE_TONEAREST FE_DOWNWARD FE_UPWARD FE_TOWARDZERO : Z.

Definition get_status_value_for_except (excepts : Z) : Z :=
  uint16
    (Z.lor
       (Z.lor
          (Z.lor
             (Z.lor
                (Z.lor
                   (if nonzero (Z.land excepts FE_INVALID)
                    then ExceptionFlags.INVALID_F else 0)
                   (match FE_DENORM with
                    | Some d => if nonzero (Z.land excepts d)
                                then ExceptionFlags.DENORMAL_F else 0
                    | None => 0
                    end))
                (if nonzero (Z.land excepts FE_DIVBYZERO)
                 then ExceptionFlags.DIV_BY_ZERO_F else 0))
             (if nonzero (Z.land excepts FE_OVERFLOW)
              then ExceptionFlags.OVERFLOW_F else 0))
          (if nonzero (Z.land excepts FE_UNDERFLOW)
           then ExceptionFlags.UNDERFLOW_F else 0))
       (if nonzero (Z.land excepts FE_INEXACT)
        then ExceptionFlags.INEXACT_F else 0)).

Definition exception_status_to_macro (status : Z) : Z :=
  Z.lor
    (Z.lor
       (Z.lor
          (Z.lor
             (Z.lor
                (if nonzero (Z.land status ExceptionFlags.INVALID_F)
                 then FE_INVALID else 0)
                (match FE_DENORM with
                 | Some d => if nonzero (Z.land status ExceptionFlags.DENORMAL_F)
                             then d else 0
                 | None => 0
                 end))
             (if nonzero (Z.land status ExceptionFlags.DIV_BY_ZERO_F)
              then FE_DIVBYZERO else 0))
          (if nonzero (Z.land status ExceptionFlags.OVERFLOW_F)
           then FE_OVERFLOW else 0))
       (if nonzero (Z.land status ExceptionFlags.UNDERFLOW_F)
        then FE_UNDERFLOW else 0))
    (if nonzero (Z.land status ExceptionFlags.INEXACT_F)
     then FE_INEXACT else 0).

(** The macros the two conversions know, and the status flags they stand
    for. *)
Definition except_macros : list Z :=
  FE_INVALID
  :: match FE_DENORM with Some d => [d] | None => [] end
  ++ [FE_DIVBYZERO; FE_OVERFLOW; FE_UNDERFLOW; FE_INEXACT].

Definition supported_flags : Z :=
  match FE_DENORM with Some _ => 0x3F | None => 0x3D end.

(** Distinct exceptions have macros without a common bit, none of them 0. *)
Definition separate_macros : Prop :=
  Forall (fun M => M <> 0) except_macros /\
  ForallOrdPairs (fun a b => Z.land a b = 0) except_macros.

Definition enable_except (excepts : Z) (m : Machine)
    : outcome (Z * Machine) :=
  let bit_mask := get_status_value_for_except excepts in
  let x87_cw := get_x87_control_word m in
  let old_excepts := uint16 (Z.land (Z.lnot x87_cw) 0x3F) in
  let x87_cw := uint16 (Z.land x87_cw (Z.lnot bit_mask)) in
  match write_x87_control_word x87_cw m with
  | FloatingPointException => FloatingPointException
  | Returns m =>
      let mxcsr := get_mxcsr m in
      let mxcsr :=
        uint32
          (Z.land mxcsr
             (Z.lnot
                (Z.shiftl bit_mask MXCSR_EXCEPTION_CONTOL_BIT_POISTION))) in
      let m := write_mxcsr mxcsr m in
      Returns (exception_status_to_macro old_excepts, m)
  end.

Definition disable_except (excepts : Z) (m : Machine)
    : outcome (Z * Machine) :=
  let bit_mask := get_status_value_for_except excepts in
  let x87_cw := get_x87_control_word m in
  let old_excepts := uint16 (Z.land (Z.lnot x87_cw) 0x3F) in
  let x87_cw := uint16 (Z.lor x87_cw bit_mask) in
  match write_x87_control_word x87_cw m with
  | FloatingPointException => FloatingPointException
  | Returns m =>
      let mxcsr := get_mxcsr m in
      let mxcsr :=
        uint32
          (Z.lor mxcsr
             (Z.shiftl bit_mask MXCSR_EXCEPTION_CONTOL_BIT_POISTION)) in
      let m := write_mxcsr mxcsr m in
      Returns (exception_status_to_macro old_excepts, m)
  end.

Definition get_except (m : Machine) : Z :=
  let mxcsr := uint16 (get_mxcsr m) in
  let enabled_excepts := uint16 (Z.land (Z.lnot (Z.shiftr mxcsr 7)) 0x3F) in
  exception_status_to_macro enabled_excepts.

Definition clear_except (excepts : Z) (m : Machine) : Z * Machine :=
  let '(state, m) := get_x87_state_descriptor m in
  let state :=
    with_status_word
      (uint16
         (Z.land (status_word state)
            (uint16 (Z.lnot (get_status_value_for_except excepts)))))
      state in
  let m := write_x87_state_descriptor state m in
  let mxcsr := get_mxcsr m in
  let mxcsr :=
    uint32 (Z.land mxcsr (Z.lnot (get_status_value_for_except excepts))) in
  let m := write_mxcsr mxcsr m in
  (0, m).

Definition test_except (excepts : Z) (m : Machine) : Z :=
  let status_word := get_x87_status_word m in
  let mxcsr := get_mxcsr m in
  let status_value := get_status_value_for_except excepts in
  exception_status_to_macro
    (uint16 (Z.land status_value (Z.lor status_word mxcsr))).

Definition set_except (excepts : Z) (m : Machine) : Z * Machine :=
  let status_value := get_status_value_for_except excepts in
  let '(state, m) := get_x87_state_descriptor m in
  let state :=
    with_status_word (uint16 (Z.lor (status_word state) status_value)) state in
  let m := write_x87_state_descriptor state m in
  let mxcsr := get_mxcsr m in
  let mxcsr := uint32 (Z.lor mxcsr status_value) in
  let m := write_mxcsr mxcsr m in
  (0, m).

Definition get_round (m : Machine) : Z :=
  let bit_value :=
    uint16
      (Z.land (Z.shiftr (get_mxcsr m) MXCSR_ROUNDING_CONTROL_BIT_POSITION)
         0x3) in
  if bit_value =? RoundingControlValue.TO_NEAREST then FE_TONEAREST
  else if bit_value =? RoundingControlValue.DOWNWARD then FE_DOWNWARD
  else if bit_value =? RoundingControlValue.UPWARD then FE_UPWARD
  else if bit_value =? RoundingControlValue.TOWARD_ZERO then FE_TOWARDZERO
  else -1.

Definition set_round (mode : Z) (m : Machine) : outcome (Z * Machine) :=
  let selected :=
    if mode =? FE_TONEAREST then Some RoundingControlValue.TO_NEAREST
    else if mode =? FE_DOWNWARD then Some RoundingControlValue.DOWNWARD
    else if mode =? FE_UPWARD then Some RoundingControlValue.UPWARD
    else if mode =? FE_TOWARDZERO then Some RoundingControlValue.TOWARD_ZERO
    else None in
  match selected with
  | None => Returns (1, m)
  | Some bit_value =>
      let x87_value :=
        uint16 (Z.shiftl bit_value X87_ROUNDING_CONTROL_BIT_POSITION) in
      let x87_control := get_x87_control_word m in
      let x87_control :=
        uint16
          (Z.lor
             (Z.land x87_control
                (Z.lnot (Z.shiftl 0x3 X87_ROUNDING_CONTROL_BIT_POSITION)))
             x87_value) in
      match write_x87_control_word x87_control m with
      | FloatingPointException => FloatingPointException
      | Returns m =>
          let mxcsr_value :=
            uint32 (Z.shiftl bit_value MXCSR_ROUNDING_CONTROL_BIT_POSITION) in
          let mxcsr_control := get_mxcsr m in
          let mxcsr_control :=
            uint32
              (Z.lor
                 (Z.land mxcsr_control
                    (Z.lnot
                       (Z.shiftl 0x3 MXCSR_ROUNDING_CONTROL_BIT_POSITION)))
                 mxcsr_value) in
          let m := write_mxcsr mxcsr_control m in
          Returns (0, m)
      end
  end.

(** [get_env] of the targets that are neither Windows nor macOS; the state
    written through [envp] is handed back. *)
Definition get_env (m : Machine) : Z * FPState * Machine :=
  let '(x87_status, m) := get_x87_state_descriptor m in
  let state := {| x87_status := x87_status; mxcsr := get_mxcsr m |} in
  (0, state, m).

Definition set_env (envp : fenv_ptr) (m : Machine) : Z * Machine :=
  let '(x87_status, m) := get_x87_state_descriptor m in
  match envp with
  | FE_DFL_ENV =>
      let x87_status :=
        with_status_word
          (uint16 (Z.land (status_word x87_status) (Z.lnot 0x3F)))
          x87_status in
      let x87_status := with_rest (repeat 0 5) x87_status in
      let x87_status :=
        with_control_word (uint16 (Z.lor (control_word x87_status) 0x3F))
          x87_status in
      let x87_status :=
        with_control_word
          (uint16
             (Z.land (control_word x87_status) (Z.lnot (Z.shiftl 0x3 10))))
          x87_status in
      let x87_status :=
        with_control_word
          (uint16 (Z.lor (control_word x87_status) (Z.shiftl 0x3 8)))
          x87_status in
      let m := write_x87_state_descriptor x87_status m in
      let mxcsr := get_mxcsr m in
      let mxcsr := uint32 (Z.land mxcsr (Z.lnot 0x3F)) in
      let mxcsr := uint32 (Z.land mxcsr (Z.lnot (Z.shiftl 0x1 6))) in
      let mxcsr := uint32 (Z.lor mxcsr (Z.shiftl 0x3F 7)) in
      let mxcsr := uint32 (Z.land mxcsr (Z.lnot (Z.shiftl 0x3 13))) in
      let mxcsr := uint32 (Z.land mxcsr (Z.lnot (Z.shiftl 0x1 15))) in
      let m := write_mxcsr mxcsr m in
      (0, m)
  | fenv_at fpstate =>
      let x87_status :=
        with_status_word
          (uint16 (Z.land (status_word x87_status) (Z.lnot 0x3F)))
          x87_status in
      let x87_status :=
        with_status_word
          (uint16
             (Z.lor (status_word x87_status)
                (Z.land (status_word (FEnv.x87_status fpstate)) 0x3F)))
          x87_status in
      let x87_status :=
        with_rest (firstn 5 (rest (FEnv.x87_status fpstate))) x87_status in
      let x87_status :=
        with_control_word (control_word (FEnv.x87_status fpstate))
          x87_status in
      let m := write_x87_state_descriptor x87_status m in
      let m := write_mxcsr (mxcsr fpstate) m in
      (0, m)
  end.

End Target.

(** The Windows variant: [fenv_t] holds the two 32-bit words of the MSVC
    representation, and only MXCSR is read and written. *)
Module Windows.

Record FPState : Type := {
  control_word : Z;
  status_word : Z
}.

Module WinExceptionFlags.
Definition INEXACT_WIN : Z := 0x01.
Definition UNDERFLOW_WIN : Z := 0x02.
Definition OVERFLOW_WIN : Z := 0x04.
Definition DIV_BY_ZERO_WIN : Z := 0x08.
Definition INVALID_WIN : Z := 0x10.
Definition DENORMAL_WIN : Z := 0x20.
Definition HIGH_OFFSET : Z := 24.
Definition HIGH_INEXACT : Z := uint32 (Z.shiftl INEXACT_WIN HIGH_OFFSET).
Definition HIGH_UNDERFLOW : Z := uint32 (Z.shiftl UNDERFLOW_WIN HIGH_OFFSET).
Definition HIGH_OVERFLOW : Z := uint32 (Z.shiftl OVERFLOW_WIN HIGH_OFFSET).
Definition HIGH_DIV_BY_ZERO : Z :=
  uint32 (Z.shiftl DIV_BY_ZERO_WIN HIGH_OFFSET).
Definition HIGH_INVALID : Z := uint32 (Z.shiftl INVALID_WIN HIGH_OFFSET).
Definition HIGH_DENORMAL : Z := uint32 (Z.shiftl DENORMAL_WIN HIGH_OFFSET).
End WinExceptionFlags.

Definition get_env (m : Machine) : Z * FPState * Machine :=
  let status_word := 0 in
  let control_word := 0 in
  let mxcsr := get_mxcsr m in
  let status_word :=
    Z.lor status_word
      (uint32
         (Z.shiftl
            (Z.land mxcsr
               (Z.lor ExceptionFlags.INVALID_F ExceptionFlags.DENORMAL_F))
            4)) in
  let status_word :=
    Z.lor status_word
      (uint32 (Z.shiftl (Z.land mxcsr ExceptionFlags.DIV_BY_ZERO_F) 1)) in
  let status_word :=
    Z.lor status_word (Z.shiftr (Z.land mxcsr ExceptionFlags.OVERFLOW_F) 1) in
  let status_word :=
    Z.lor status_word (Z.shiftr (Z.land mxcsr ExceptionFlags.UNDERFLOW_F) 3) in
  let status_word :=
    Z.lor status_word (Z.shiftr (Z.land mxcsr ExceptionFlags.INEXACT_F) 5) in
  let status_word :=
    Z.lor status_word
      (uint32 (Z.shiftl status_word WinExceptionFlags.HIGH_OFFSET)) in
  let control_word :=
    Z.lor control_word
      (Z.shiftr
         (Z.land mxcsr
            (Z.shiftl
               (Z.lor ExceptionFlags.INVALID_F ExceptionFlags.DENORMAL_F) 7))
         3) in
  let control_word :=
    Z.lor control_word
      (Z.shiftr
         (Z.land mxcsr (Z.shiftl ExceptionFlags.DIV_BY_ZERO_F 7)) 6) in
  let control_word :=
    Z.lor control_word
      (Z.shiftr (Z.land mxcsr (Z.shiftl ExceptionFlags.OVERFLOW_F 7)) 8) in
  let control_word :=
    Z.lor control_word
      (Z.shiftr (Z.land mxcsr (Z.shiftl ExceptionFlags.UNDERFLOW_F 7)) 10) in
  let control_word :=
    Z.lor control_word
      (Z.shiftr (Z.land mxcsr (Z.shiftl ExceptionFlags.INEXACT_F 7)) 12) in
  let control_word :=
    Z.lor control_word
      (uint32 (Z.shiftl control_word WinExceptionFlags.HIGH_OFFSET)) in
  let control_word :=
    Z.lor control_word (Z.shiftr (Z.land mxcsr 0x6000) 5) in
  let control_word :=
    Z.lor control_word (uint32 (Z.shiftl (Z.land mxcsr 0x6000) 17)) in
  let control_word :=
    Z.lor control_word (Z.shiftr (Z.land mxcsr 0x8000) 5) in
  let control_word :=
    Z.lor control_word
      (uint32
         (Z.shiftl
            (Z.lxor (Z.shiftr (Z.land mxcsr 0x8000) 9) (Z.land mxcsr 0x0040))
            5)) in
  let state :=
    {| control_word := control_word; status_word := status_word |} in
  (0, state, m).

Definition set_env (state : FPState) (m : Machine) : Z * Machine :=
  let mxcsr := 0 in
  let mxcsr :=
    Z.lor mxcsr
      (uint16
         (Z.shiftr
            (Z.land (status_word state)
               (Z.lor WinExceptionFlags.HIGH_DENORMAL
                  WinExceptionFlags.HIGH_INVALID))
            28)) in
  let mxcsr :=
    Z.lor mxcsr
      (uint16
         (Z.shiftr
            (Z.land (status_word state) WinExceptionFlags.HIGH_DIV_BY_ZERO)
            25)) in
  let mxcsr :=
    Z.lor mxcsr
      (uint16
         (Z.shiftr
            (Z.land (status_word state) WinExceptionFlags.HIGH_OVERFLOW) 23)) in
  let mxcsr :=
    Z.lor mxcsr
      (uint16
         (Z.shiftr
            (Z.land (status_word state) WinExceptionFlags.HIGH_UNDERFLOW)
            21)) in
  let mxcsr :=
    Z.lor mxcsr
      (uint16
         (Z.shiftr
            (Z.land (status_word state) WinExceptionFlags.HIGH_INEXACT) 19)) in
  let mxcsr :=
    Z.lor mxcsr
      (uint16
         (Z.shiftr
            (Z.lxor (Z.shiftr (Z.land (control_word state) 0x800) 1)
               (Z.land (control_word state) 0x400))
            4)) in
  let mxcsr :=
    Z.lor mxcsr
      (uint16
         (Z.shiftr
            (Z.land (control_word state)
               (Z.lor WinExceptionFlags.HIGH_DENORMAL
                  WinExceptionFlags.HIGH_INVALID))
            21)) in
  let mxcsr :=
    Z.lor mxcsr
      (uint16
         (Z.shiftr
            (Z.land (control_word state) WinExceptionFlags.HIGH_DIV_BY_ZERO)
            18)) in
  let mxcsr :=
    Z.lor mxcsr
      (uint16
         (Z.shiftr
            (Z.land (control_word state) WinExceptionFlags.HIGH_OVERFLOW)
            16)) in
  let mxcsr :=
    Z.lor mxcsr
      (uint16
         (Z.shiftr
            (Z.land (control_word state) WinExceptionFlags.HIGH_UNDERFLOW)
            14)) in
  let mxcsr :=
    Z.lor mxcsr
      (uint16
         (Z.shiftr
            (Z.land (control_word state) WinExceptionFlags.HIGH_INEXACT)
            12)) in
  let mxcsr :=
    Z.lor mxcsr
      (uint16 (Z.shiftr (Z.land (control_word state) 0xc0000000) 17)) in
  let mxcsr :=
    Z.lor mxcsr
      (uint16 (uint32 (Z.shiftl (Z.land (control_word state) 0x400) 5))) in
  let m := write_mxcsr mxcsr m in
  (0, m).

End Windows.

End FEnv.

(** Macro values of an fenv.h for x86_64 in which every exception macro is
    the flag bit itself and __FE_DENORM is defined, a processor, and the
    registers as they are after reset; the statements about the environment
    are exercised on these. *)
Module SampleFEnv.

Definition FE_INVALID : Z := 0x01.
Definition FE_DENORM : option Z := Some 0x02.
Definition FE_DIVBYZERO : Z := 0x04.
Definition FE_OVERFLOW : Z := 0x08.
Definition FE_UNDERFLOW : Z := 0x10.
Definition FE_INEXACT : Z := 0x20.
Definition FE_TONEAREST : Z := 0.
Definition FE_DOWNWARD : Z := 0x400.
Definition FE_UPWARD : Z := 0x800.
Definition FE_TOWARDZERO : Z := 0xc00.

(** The tag word of a processor whose registers all hold zero: a register
    loaded as empty (tag 3) stays empty, any other is tagged as zero (1). *)
Definition tag_word (loaded : Z) : Z :=
  fold_right
    (fun i t =>
       Z.lor t
         (Z.shiftl
            (if Z.land (Z.shiftr loaded (2 * i)) 0x3 =? 0x3 then 0x3 else 0x1)
            (2 * i)))
    0 [0; 1; 2; 3; 4; 5; 6; 7].

(** A processor that holds ones in the reserved halves, recomputes the tag
    word and keeps the pointers as loaded. *)
Definition fldenv_image (s : FEnv.X87StateDescriptor)
    : FEnv.X87StateDescriptor :=
  {| FEnv.control_word := FEnv.control_word s; FEnv.unused1 := 0xFFFF;
     FEnv.status_word := FEnv.status_word s; FEnv.unused2 := 0xFFFF;
     FEnv.rest :=
       [ Z.lor 0xFFFF0000 (tag_word (nth 0 (FEnv.rest s) 0));
         FEnv.uint32 (nth 1 (FEnv.rest s) 0);
         FEnv.uint32 (nth 2 (FEnv.rest s) 0);
         FEnv.uint32 (nth 3 (FEnv.rest s) 0);
         Z.lor 0xFFFF0000 (FEnv.uint16 (nth 4 (FEnv.rest s) 0)) ] |}.

Definition reset_state : FEnv.Machine :=
  {| FEnv.X87 :=
       {| FEnv.control_word := 0x37F; FEnv.unused1 := 0xFFFF;
          FEnv.status_word := 0; FEnv.unused2 := 0xFFFF;
          FEnv.rest := [0xFFFFFFFF; 0; 0; 0; 0xFFFF0000] |};
     FEnv.MXCSR := 0x1F80 |}.

End SampleFEnv.

(** [P] on the [fuel] integers from [z] upwards. *)
Fixpoint all_from (fuel : nat) (z : Z) (P : Z -> bool) : bool :=
  match fuel with
  | O => true
  | S fuel' => P z && all_from fuel' (z + 1) P
  end.

(** The state the Windows [get_env] stores when MXCSR holds [mx]. *)
Definition windows_env_of (mx : Z) : FEnv.Windows.FPState :=
  snd (fst (FEnv.Windows.get_env
              {| FEnv.X87 :=
                   {| FEnv.control_word := 0; FEnv.unused1 := 0;
                      FEnv.status_word := 0; FEnv.unused2 := 0;
                      FEnv.rest := [] |};
                 FEnv.MXCSR := mx |})).

(** The value the Windows [set_env] loads into MXCSR. *)
Definition windows_mxcsr_of (st : FEnv.Windows.FPState) : Z :=
  FEnv.MXCSR
    (snd (FEnv.Windows.set_env st
            {| FEnv.X87 :=
                 {| FEnv.control_word := 0; FEnv.unused1 := 0;
                    FEnv.status_word := 0; FEnv.unused2 := 0;
                    FEnv.rest := [] |};
               FEnv.MXCSR := 0 |})).

(** The two parts of MXCSR the Windows conversion treats separately: the
    six exception flags, and the ten bits above them. *)
Definition flag_bits (mx : Z) : Z := Z.land mx 0x3F.

Definition control_bits (mx : Z) : Z := Z.land mx 0xFFC0.

Definition windows_state (cw sw : Z) : FEnv.Windows.FPState :=
  {| FEnv.Windows.control_word := cw; FEnv.Windows.status_word := sw |}.

(** In stored words, the copies in the high bytes agree with those in the
    low bytes. *)
Definition windows_copies_ok (st : FEnv.Windows.FPState) : bool :=
  (Z.land (Z.shiftr (FEnv.Windows.control_word st) 24) 0x3F
   =? Z.land (FEnv.Windows.control_word st) 0x3F)
  && (Z.land (Z.shiftr (FEnv.Windows.control_word st) 30) 0x3
      =? Z.land (Z.shiftr (FEnv.Windows.control_word st) 8) 0x3)
  && (Z.land (Z.shiftr (FEnv.Windows.status_word st) 24) 0x3F
      =? Z.land (FEnv.Windows.status_word st) 0x3F).

(** Two VTYPE bytes that [printVType] both renders are rendered differently
    unless they are the same byte. *)
Definition printVType_same_text (b1 b2 : Z) : bool :=
  match printVType b1 "", printVType b2 "" with
  | Ok t1, Ok t2 => implb (String.eqb t1 t2) (b1 =? b2)
  | _, _ => true
  end.

(** The value [getSEWLMULRatio] divides by: the multiplier in eighths. *)
Definition fixedPointLMUL (l : VLMUL) : Z :=
  match l with
  | LMUL_1 => 8
  | LMUL_2 => 16
  | LMUL_4 => 32
  | LMUL_8 => 64
  | LMUL_F8 => 1
  | LMUL_F4 => 2
  | LMUL_F2 => 4
  | LMUL_RESERVED => 0
  end.

Lemma forallb_range (P : Z -> bool) (lo : Z) (n : nat) :
  forallb P (map (fun k => lo + Z.of_nat k) (seq 0 n)) = true ->
  forall z, lo <= z < lo + Z.of_nat n -> P z = true.
Proof.
  intros H z Hz.
  rewrite forallb_forall in H.
  apply H, in_map_iff.
  exists (Z.to_nat (z - lo)); split; [lia|].
  apply in_seq; lia.
Qed.

Lemma isValidSEW_inv (SEW : Z) :
  isValidSEW SEW = true -> SEW = 8 \/ SEW = 16 \/ SEW = 32 \/ SEW = 64.
Proof.
  unfold isValidSEW.
  intros H.
  apply andb_prop in H as [H Hhi].
  apply andb_prop in H as [Hpow Hlo].
  apply Z.leb_le in Hhi, Hlo.
  pose proof (forallb_range
                (fun z => implb (isPowerOf2_32 z) (existsb (Z.eqb z) validSEWs))
                8 57 eq_refl SEW ltac:(lia)) as Hin.
  cbv beta in Hin.
  rewrite Hpow in Hin.
  simpl in Hin.
  repeat (apply orb_prop in Hin as [Hin|Hin]);
    try discriminate; apply Z.eqb_eq in Hin; auto.
Qed.

Lemma isValidSEW_iff (SEW : Z) :
  isValidSEW SEW = true <-> In SEW validSEWs.
Proof.
  split.
  - intros H.
    destruct (isValidSEW_inv _ H) as [-> | [-> | [-> | ->]]]; simpl; auto.
  - simpl.
    intros [<- | [<- | [<- | [<- | []]]]]; reflexivity.
Qed.

Lemma isLegalVLMUL_iff (l : VLMUL) :
  isLegalVLMUL l = true <-> In l legalVLMULs.
Proof.
  split.
  - destruct l; simpl; intros H; try discriminate; auto 8.
  - simpl.
    intros H; repeat (destruct H as [<- | H]; [reflexivity|]); destruct H.
Qed.

Lemma VLMUL_to_of_unsigned (c : Z) :
  0 <= c < 8 -> VLMUL_to_unsigned (VLMUL_of_unsigned c) = c.
Proof.
  intros Hc.
  assert (c = 0 \/ c = 1 \/ c = 2 \/ c = 3 \/ c = 4 \/ c = 5 \/ c = 6 \/ c = 7)
    as H by lia.
  repeat (destruct H as [-> | H]; [reflexivity|]).
  subst; reflexivity.
Qed.

Lemma VLMUL_of_to_unsigned (l : VLMUL) :
  VLMUL_of_unsigned (VLMUL_to_unsigned l) = l.
Proof. destruct l; reflexivity. Qed.

(** The LMUL field of a word is its three low bits, whatever the rest. *)
Lemma getVLMUL_code (VType : Z) :
  VLMUL_to_unsigned (getVLMUL VType) = Z.land VType 0x7.
Proof.
  unfold getVLMUL.
  apply VLMUL_to_of_unsigned.
  change 0x7 with (Z.ones 3).
  rewrite Z.land_ones by lia.
  apply Z.mod_pos_bound; lia.
Qed.

Ltac valid_sew_cases H :=
  apply isValidSEW_inv in H; destruct H as [-> | [-> | [-> | ->]]].

(** ** encodeVTYPE *)

(** C2: for a valid SEW the word is
    [(log2 (SEW/8) << 3) | (lmulCode & 7)], or-ed with 0x40 when tail
    agnostic and with 0x80 when mask agnostic; bit 6 is the tail-agnostic
    flag, bit 7 the mask-agnostic flag, and the word is below 256. *)
Theorem encodeVTYPE_layout (l : VLMUL) (SEW : Z) (ta ma : bool) :
  isValidSEW SEW = true ->
  exists w,
    encodeVTYPE l SEW ta ma = Ok w /\
    w = Z.lor
          (Z.lor (Z.lor (Z.shiftl (Z.log2 (SEW / 8)) 3)
                        (Z.land (VLMUL_to_unsigned l) 0x7))
                 (if ta then 0x40 else 0))
          (if ma then 0x80 else 0) /\
    Z.land w 0x3F =
      Z.lor (Z.shiftl (Z.log2 (SEW / 8)) 3) (Z.land (VLMUL_to_unsigned l) 0x7) /\
    Z.testbit w 6 = ta /\
    Z.testbit w 7 = ma /\
    0 <= w < 256.
Proof.
  intros H.
  valid_sew_cases H; destruct l, ta, ma;
    (eexists; split; [reflexivity|]); vm_compute; intuition congruence.
Qed.

Lemma encodeVTYPE_layout_example :
  exists w,
    encodeVTYPE LMUL_F4 64 true false = Ok w /\
    w = Z.lor (Z.lor (Z.lor (Z.shiftl (Z.log2 (64 / 8)) 3)
                            (Z.land (VLMUL_to_unsigned LMUL_F4) 0x7))
                     0x40) 0 /\
    Z.land w 0x3F =
      Z.lor (Z.shiftl (Z.log2 (64 / 8)) 3)
            (Z.land (VLMUL_to_unsigned LMUL_F4) 0x7) /\
    Z.testbit w 6 = true /\
    Z.testbit w 7 = false /\
    0 <= w < 256.
Proof.
  apply (encodeVTYPE_layout LMUL_F4 64 true false).
  reflexivity.
Defined.

(** C3, as the code has it: SEW = 32 puts 2 in bits 5:3, so the word of
    (LMUL_1, 32, false, false) is 0x10, and with both flags it is 0xD0. *)
Theorem encodeVTYPE_LMUL_1_e32 :
  encodeVTYPE LMUL_1 32 false false = Ok 0x10 /\
  encodeVTYPE LMUL_1 32 true true = Ok 0xD0.
Proof. split; reflexivity. Qed.

(** C3 as stated fails: the words are not 0x02 and 0xC2. *)
Lemma encodeVTYPE_LMUL_1_e32_not_0x02 :
  ~ (encodeVTYPE LMUL_1 32 false false = Ok 0x02 /\
     encodeVTYPE LMUL_1 32 true true = Ok 0xC2).
Proof. intros [H _]; vm_compute in H; discriminate H. Qed.

(** ** decodeVLMUL *)

(** C8: codes 0..3 decode to [(1 << c, false)], codes 5..7 to
    [(1 << (8 - c), true)], and any other code is unreachable. *)
Theorem decodeVLMUL_table :
  (forall c : Z,
      decodeVLMUL (VLMUL_of_unsigned c) =
        if (0 <=? c) && (c <=? 3) then Ok (Z.shiftl 1 c, false)
        else if (5 <=? c) && (c <=? 7) then Ok (Z.shiftl 1 (8 - c), true)
        else Unreachable) /\
  (VLMUL_to_unsigned LMUL_1 = 0 /\ VLMUL_to_unsigned LMUL_2 = 1 /\
   VLMUL_to_unsigned LMUL_4 = 2 /\ VLMUL_to_unsigned LMUL_8 = 3 /\
   VLMUL_to_unsigned LMUL_F8 = 5 /\ VLMUL_to_unsigned LMUL_F4 = 6 /\
   VLMUL_to_unsigned LMUL_F2 = 7) /\
  decodeVLMUL LMUL_1 = Ok (1, false) /\
  decodeVLMUL LMUL_2 = Ok (2, false) /\
  decodeVLMUL LMUL_4 = Ok (4, false) /\
  decodeVLMUL LMUL_8 = Ok (8, false) /\
  decodeVLMUL LMUL_F8 = Ok (8, true) /\
  decodeVLMUL LMUL_F4 = Ok (4, true) /\
  decodeVLMUL LMUL_F2 = Ok (2, true) /\
  decodeVLMUL LMUL_RESERVED = Unreachable.
Proof.
  split; [|repeat split; reflexivity].
  intros [|p|p]; [reflexivity| |reflexivity].
  do 3 (try destruct p as [p|p|]); try reflexivity;
    destruct p; reflexivity.
Qed.

(** ** Round trip through the VTYPE word *)

(** C1, as the code has it: for a valid SEW, any of the eight LMUL codes
    and any flags, the fields read back from the encoded word are the
    inputs; for the seven legal LMUL codes [decodeVLMUL] of the LMUL field
    succeeds and its (multiplier, fractional) pair names the input LMUL. *)
Theorem encodeVTYPE_roundtrip (l : VLMUL) (SEW : Z) (ta ma : bool) :
  isValidSEW SEW = true ->
  exists w,
    encodeVTYPE l SEW ta ma = Ok w /\
    getVLMUL w = l /\
    getSEW w = SEW /\
    isTailAgnostic w = ta /\
    isMaskAgnostic w = ma /\
    (isLegalVLMUL l = true ->
     exists m f,
       decodeVLMUL (getVLMUL w) = Ok (m, f) /\ encodeLMUL m f = l).
Proof.
  intros H.
  valid_sew_cases H; destruct l, ta, ma;
    (eexists; split; [reflexivity|]);
    repeat (split; [reflexivity|]);
    intros Hl; try discriminate Hl;
    do 2 eexists; split; reflexivity.
Qed.

Lemma encodeVTYPE_roundtrip_example :
  exists w,
    encodeVTYPE LMUL_F2 16 true false = Ok w /\
    getVLMUL w = LMUL_F2 /\
    getSEW w = 16 /\
    isTailAgnostic w = true /\
    isMaskAgnostic w = false /\
    (isLegalVLMUL LMUL_F2 = true ->
     exists m f,
       decodeVLMUL (getVLMUL w) = Ok (m, f) /\ encodeLMUL m f = LMUL_F2).
Proof.
  apply (encodeVTYPE_roundtrip LMUL_F2 16 true false).
  reflexivity.
Defined.

(** C1 as stated fails at the reserved LMUL code: the word is produced, but
    decoding its LMUL field through [decodeVLMUL] is unreachable. *)
Lemma encodeVTYPE_roundtrip_reserved :
  isValidSEW 8 = true /\
  In LMUL_RESERVED allVLMUL /\
  exists w,
    encodeVTYPE LMUL_RESERVED 8 false false = Ok w /\
    getVLMUL w = LMUL_RESERVED /\
    decodeVLMUL (getVLMUL w) = Unreachable.
Proof.
  split; [reflexivity|].
  split; [simpl; auto 8|].
  eexists; split; [reflexivity|].
  split; reflexivity.
Qed.

(** ** printVType *)

(** C9: on the word of a valid SEW and a legal LMUL the text written is
    "e" and the SEW in decimal, then ", m" and the multiplier for a whole
    LMUL (m1, m2, m4, m8) or ", mf" and the denominator for a fractional
    one (mf2, mf4, mf8), then ", ta" or ", tu", then ", ma" or ", mu"; the
    multiplier and the fractional mark are those [decodeVLMUL] gives. *)
Theorem printVType_format (l : VLMUL) (SEW : Z) (ta ma : bool) (OS : string) :
  isValidSEW SEW = true ->
  isLegalVLMUL l = true ->
  exists w m f,
    encodeVTYPE l SEW ta ma = Ok w /\
    decodeVLMUL l = Ok (m, f) /\
    printVType w OS =
      Ok (OS ++ "e" ++ print_unsigned SEW
             ++ (if f then ", mf" else ", m") ++ print_unsigned m
             ++ (if ta then ", ta" else ", tu")
             ++ (if ma then ", ma" else ", mu"))%string /\
    printVType w OS =
      Ok (OS
            ++ match SEW with
               | 8 => "e8"
               | 16 => "e16"
               | 32 => "e32"
               | _ => "e64"
               end
            ++ match l with
               | LMUL_1 => ", m1"
               | LMUL_2 => ", m2"
               | LMUL_4 => ", m4"
               | LMUL_8 => ", m8"
               | LMUL_F2 => ", mf2"
               | LMUL_F4 => ", mf4"
               | LMUL_F8 => ", mf8"
               | LMUL_RESERVED => ""
               end
            ++ (if ta then ", ta" else ", tu")
            ++ (if ma then ", ma" else ", mu"))%string.
Proof.
  intros H Hl.
  assert (forall a b c : string, ((a ++ b) ++ c = a ++ b ++ c)%string) as Happ.
  { induction a; simpl; intros; [reflexivity|]. now rewrite IHa. }
  valid_sew_cases H; destruct l; try discriminate Hl; destruct ta, ma;
    (do 3 eexists; split; [reflexivity|]; split; [reflexivity|]);
    cbv [printVType]; cbn [bind];
    match goal with
    | |- context [decodeVLMUL (getVLMUL ?w)] =>
        let d := eval vm_compute in (decodeVLMUL (getVLMUL w)) in
        change (decodeVLMUL (getVLMUL w)) with d
    end;
    match goal with
    | |- context [getSEW ?w] =>
        let d := eval vm_compute in (getSEW w) in
        change (getSEW w) with d
    end;
    match goal with
    | |- context [isTailAgnostic ?w] =>
        let d := eval vm_compute in (isTailAgnostic w) in
        change (isTailAgnostic w) with d
    end;
    match goal with
    | |- context [isMaskAgnostic ?w] =>
        let d := eval vm_compute in (isMaskAgnostic w) in
        change (isMaskAgnostic w) with d
    end;
    cbn [bind]; rewrite !Happ; split; reflexivity.
Qed.

Lemma printVType_e16_mf2_ta_mu :
  bind (encodeVTYPE LMUL_F2 16 true false) (fun w => printVType w "")
  = Ok "e16, mf2, ta, mu"%string.
Proof.
  destruct (printVType_format LMUL_F2 16 true false "" eq_refl eq_refl)
    as (w & m & f & Hw & Hd & _ & Hp).
  rewrite Hw; cbn [bind]; rewrite Hp.
  reflexivity.
Defined.

(** ** encodeXSfmmVType *)

(** C10: for a valid SEW and a widening factor of 1, 2 or 4 the word is
    [(log2 (SEW/8) << 3) | (AltFmt << 8) | ((log2 Widen + 1) << 9)]: the SEW
    code in bits 5:3, the flag in bit 8, [log2 Widen + 1] in bits 10:9 and
    zero everywhere else. *)
Theorem encodeXSfmmVType_layout (SEW Widen : Z) (AltFmt : bool) :
  isValidSEW SEW = true ->
  Widen = 1 \/ Widen = 2 \/ Widen = 4 ->
  exists w,
    encodeXSfmmVType SEW Widen AltFmt = Ok w /\
    w = Z.lor (Z.lor (Z.shiftl (Z.log2 (SEW / 8)) 3)
                     (Z.shiftl (Z.b2z AltFmt) 8))
              (Z.shiftl (Z.log2 Widen + 1) 9) /\
    Z.land (Z.shiftr w 3) 0x7 = Z.log2 (SEW / 8) /\
    Z.testbit w 8 = AltFmt /\
    Z.land (Z.shiftr w 9) 0x3 = Z.log2 Widen + 1 /\
    Z.land w (Z.lnot 0x738) = 0.
Proof.
  intros H [-> | [-> | ->]];
    valid_sew_cases H; destruct AltFmt;
    (eexists; split; [reflexivity|]); vm_compute; intuition congruence.
Qed.

Lemma encodeXSfmmVType_layout_example :
  exists w,
    encodeXSfmmVType 32 4 true = Ok w /\
    w = Z.lor (Z.lor (Z.shiftl (Z.log2 (32 / 8)) 3) (Z.shiftl (Z.b2z true) 8))
              (Z.shiftl (Z.log2 4 + 1) 9) /\
    Z.land (Z.shiftr w 3) 0x7 = Z.log2 (32 / 8) /\
    Z.testbit w 8 = true /\
    Z.land (Z.shiftr w 9) 0x3 = Z.log2 4 + 1 /\
    Z.land w (Z.lnot 0x738) = 0.
Proof.
  apply (encodeXSfmmVType_layout 32 4 true).
  - reflexivity.
  - right; right; reflexivity.
Defined.

(** ** Powers of two *)

Lemma isPowerOf2_32_inv (v : Z) :
  isPowerOf2_32 v = true -> exists k, 0 <= k /\ v = 2 ^ k.
Proof.
  unfold isPowerOf2_32.
  intros H.
  apply andb_prop in H as [Hpos Hland].
  apply Z.ltb_lt in Hpos.
  apply Z.eqb_eq in Hland.
  exists (Z.log2 v).
  split; [apply Z.log2_nonneg|].
  destruct (Z.log2_spec v Hpos) as [Hlo Hhi].
  destruct (Z.eq_dec v (2 ^ Z.log2 v)) as [|Hne]; [assumption|].
  exfalso.
  assert (Z.log2 (v - 1) = Z.log2 v) as Hlog.
  { apply Z.log2_unique; [apply Z.log2_nonneg|lia]. }
  assert (Z.testbit (Z.land v (v - 1)) (Z.log2 v) = true) as Hbit.
  { rewrite Z.land_spec, Z.bit_log2 by lia.
    rewrite andb_true_l, <- Hlog.
    apply Z.bit_log2.
    pose proof (Z.pow_pos_nonneg 2 (Z.log2 v) ltac:(lia) (Z.log2_nonneg v)).
    lia. }
  rewrite Hland, Z.bits_0 in Hbit.
  discriminate Hbit.
Qed.

Lemma isPowerOf2_32_pow2 (k : Z) : 0 <= k -> isPowerOf2_32 (2 ^ k) = true.
Proof.
  intros Hk.
  unfold isPowerOf2_32.
  apply andb_true_intro; split.
  - apply Z.ltb_lt, Z.pow_pos_nonneg; lia.
  - apply Z.eqb_eq.
    replace (2 ^ k - 1) with (Z.ones k) by (rewrite Z.ones_equiv; lia).
    rewrite Z.land_ones by assumption.
    apply Z.mod_same.
    pose proof (Z.pow_pos_nonneg 2 k ltac:(lia) Hk); lia.
Qed.

(** A 32-bit power of two that is at least 8 is [2 ^ k] with [3 <= k < 32]. *)
Lemma wide_power_of_two (v : Z) :
  isPowerOf2_32 v = true -> 8 <= v < U32.modulus ->
  exists k, 3 <= k < 32 /\ v = 2 ^ k.
Proof.
  intros Hp [Hlo Hhi].
  destruct (isPowerOf2_32_inv v Hp) as (k & Hk & ->).
  exists k; split; [|reflexivity].
  split.
  - change 8 with (2 ^ 3) in Hlo.
    apply Z.pow_le_mono_r_iff in Hlo; lia.
  - unfold U32.modulus in Hhi.
    apply Z.pow_lt_mono_r_iff in Hhi; lia.
Qed.

(** ** getSEWLMULRatio *)

Lemma multiplier_legal (l : VLMUL) (v : Q) :
  multiplier l = Some v -> isLegalVLMUL l = true /\ (0 < v)%Q.
Proof.
  destruct l; intros H; try discriminate H;
    injection H as <-; split; reflexivity.
Qed.

Lemma multiplier_defined (l : VLMUL) :
  isLegalVLMUL l = true -> exists v, multiplier l = Some v.
Proof.
  destruct l; intros H; try discriminate H; eexists; reflexivity.
Qed.

(** The ratio is the exact quotient of SEW by the multiplier. *)
Lemma getSEWLMULRatio_exact (SEW : Z) (l : VLMUL) (v : Q) :
  isValidSEW SEW = true ->
  multiplier l = Some v ->
  exists r, getSEWLMULRatio SEW l = Ok r /\ (inject_Z r == inject_Z SEW / v)%Q.
Proof.
  intros H Hv.
  valid_sew_cases H; destruct l; try discriminate Hv;
    injection Hv as <-; eexists; split; reflexivity.
Qed.

(** C6: scaling SEW and the LMUL multiplier by the same positive factor
    leaves the ratio unchanged, whenever both pairs are valid. *)
Theorem getSEWLMULRatio_scale_invariant
    (SEW SEW' : Z) (l l' : VLMUL) (v v' k : Q) :
  isValidSEW SEW = true ->
  multiplier l = Some v ->
  isValidSEW SEW' = true ->
  multiplier l' = Some v' ->
  (0 < k)%Q ->
  (inject_Z SEW' == inject_Z SEW * k)%Q ->
  (v' == v * k)%Q ->
  returned (getSEWLMULRatio SEW l) = true /\
  getSEWLMULRatio SEW' l' = getSEWLMULRatio SEW l.
Proof.
  intros HS Hv HS' Hv' Hk HSk Hvk.
  destruct (getSEWLMULRatio_exact _ _ _ HS Hv) as (r & Hr & Hq).
  destruct (getSEWLMULRatio_exact _ _ _ HS' Hv') as (r' & Hr' & Hq').
  rewrite Hr, Hr'.
  split; [reflexivity|].
  f_equal.
  apply multiplier_legal in Hv as [_ Hpos].
  assert (inject_Z r' == inject_Z r)%Q as Heq.
  { rewrite Hq, Hq', HSk, Hvk.
    field.
    split; intros Hz; rewrite Hz in *;
      eapply Qlt_irrefl; eassumption. }
  unfold Qeq in Heq; simpl in Heq; lia.
Qed.

Lemma getSEWLMULRatio_e16_m1_e32_m2 :
  returned (getSEWLMULRatio 16 LMUL_1) = true /\
  getSEWLMULRatio 32 LMUL_2 = getSEWLMULRatio 16 LMUL_1.
Proof.
  apply (getSEWLMULRatio_scale_invariant 16 32 LMUL_1 LMUL_2 1 2 2);
    reflexivity.
Defined.

(** ** getSameRatioLMUL *)

Lemma result_Z_eqb_eq (a b : result Z) : result_Z_eqb a b = true -> a = b.
Proof.
  destruct a, b; simpl; intros H; try discriminate H; try reflexivity.
  apply Z.eqb_eq in H; now subst.
Qed.

Lemma VLMUL_eqb_eq (a b : VLMUL) : VLMUL_eqb a b = true -> a = b.
Proof. destruct a, b; intros H; try discriminate H; reflexivity. Qed.

(** Every valid SEW, legal LMUL and power-of-two EEW from 8 to 2^31. *)
Lemma sameRatio_ok_all :
  forallb
    (fun k =>
       forallb
         (fun SEW => forallb (fun l => sameRatio_ok SEW l (2 ^ k)) legalVLMULs)
         validSEWs)
    (map (fun i => 3 + Z.of_nat i) (seq 0 29)) = true.
Proof. vm_compute; reflexivity. Qed.

Lemma sameRatio_ok_holds (SEW : Z) (l : VLMUL) (EEW : Z) :
  isValidSEW SEW = true ->
  isLegalVLMUL l = true ->
  isPowerOf2_32 EEW = true ->
  8 <= EEW < U32.modulus ->
  sameRatio_ok SEW l EEW = true.
Proof.
  intros HS Hl Hp Hr.
  destruct (wide_power_of_two EEW Hp Hr) as (k & Hk & ->).
  pose proof (forallb_range _ 3 29 sameRatio_ok_all k ltac:(lia)) as H.
  cbv beta in H.
  rewrite forallb_forall in H.
  specialize (H SEW (proj1 (isValidSEW_iff SEW) HS)).
  rewrite forallb_forall in H.
  exact (H l (proj1 (isLegalVLMUL_iff l) Hl)).
Qed.

(** C7, as the code has it: for a valid SEW, a legal LMUL and an EEW that is
    a power of two with [8 <= EEW], a returned LMUL has the ratio of the
    inputs at the new width; and when the width is unchanged the returned
    LMUL is the input one. *)
Theorem getSameRatioLMUL_preserves_ratio
    (SEW : Z) (l : VLMUL) (EEW : Z) (L : VLMUL) :
  isValidSEW SEW = true ->
  isLegalVLMUL l = true ->
  isPowerOf2_32 EEW = true ->
  8 <= EEW < U32.modulus ->
  getSameRatioLMUL SEW l EEW = Ok (Some L) ->
  returned (getSEWLMULRatio SEW l) = true /\
  getSEWLMULRatio EEW L = getSEWLMULRatio SEW l /\
  (EEW = SEW -> L = l).
Proof.
  intros HS Hl Hp Hr Hg.
  pose proof (sameRatio_ok_holds SEW l EEW HS Hl Hp Hr) as H.
  unfold sameRatio_ok in H.
  rewrite Hg in H.
  apply andb_prop in H as [H Hid].
  apply andb_prop in H as [H Hratio].
  apply andb_prop in H as [_ Hret].
  split; [assumption|].
  split; [now apply result_Z_eqb_eq|].
  intros ->.
  rewrite Z.eqb_refl in Hid.
  now apply VLMUL_eqb_eq.
Qed.

Lemma getSameRatioLMUL_identity_e32_m1 :
  getSameRatioLMUL 32 LMUL_1 32 = Ok (Some LMUL_1) /\
  returned (getSEWLMULRatio 32 LMUL_1) = true /\
  getSEWLMULRatio 32 LMUL_1 = getSEWLMULRatio 32 LMUL_1 /\
  (32 = 32 -> LMUL_1 = LMUL_1).
Proof.
  split; [reflexivity|].
  apply (getSameRatioLMUL_preserves_ratio 32 LMUL_1 32 LMUL_1);
    try reflexivity.
  unfold U32.modulus; lia.
Defined.

(** C7 as stated fails for a width that is not a power of two: at EEW = 48
    the truncated arithmetic returns LMUL_1, whose ratio at 48 is 48 and not
    the 32 of (32, LMUL_1). *)
Lemma getSameRatioLMUL_e48_changes_ratio :
  isValidSEW 32 = true /\
  isLegalVLMUL LMUL_1 = true /\
  8 <= 48 /\
  getSameRatioLMUL 32 LMUL_1 48 = Ok (Some LMUL_1) /\
  getSEWLMULRatio 48 LMUL_1 = Ok 48 /\
  getSEWLMULRatio 32 LMUL_1 = Ok 32 /\
  getSEWLMULRatio 48 LMUL_1 <> getSEWLMULRatio 32 LMUL_1.
Proof.
  repeat (split; [reflexivity || lia|]).
  intros H; vm_compute in H; discriminate H.
Qed.

(** C5: the division [8 / EMULFixedPoint] is reached with a zero divisor.
    At SEW = 64, LMUL_F8, EEW = 8 the ratio is 512, [EEW * 8 / 512] is 0,
    and the call ends in a division by zero. *)
Theorem getSameRatioLMUL_division_by_zero_reachable :
  exists SEW l EEW Ratio EMULFixedPoint,
    SEW = 64 /\ l = LMUL_F8 /\ EEW = 8 /\
    isValidSEW SEW = true /\
    isLegalVLMUL l = true /\
    isPowerOf2_32 EEW = true /\
    8 <= EEW /\
    getSEWLMULRatio SEW l = Ok Ratio /\
    Ratio = 512 /\
    U32.div (U32.mul EEW 8) Ratio = Ok EMULFixedPoint /\
    EMULFixedPoint = 0 /\
    (EMULFixedPoint <? 8) = true /\
    U32.div 8 EMULFixedPoint = DivisionByZero /\
    getSameRatioLMUL SEW l EEW = DivisionByZero.
Proof.
  exists 64, LMUL_F8, 8, 512, 0.
  repeat (split; [reflexivity || lia|]).
  reflexivity.
Qed.

(** C4 at the input (64, LMUL_F8, 8): both widths are valid, no legal LMUL
    has the ratio of (64, LMUL_F8) at width 8, and the call does not return
    "no value": it divides by zero. *)
Theorem getSameRatioLMUL_e64_mf8_e8 :
  isValidSEW 64 = true /\
  isLegalVLMUL LMUL_F8 = true /\
  isValidSEW 8 = true /\
  (forall L, isLegalVLMUL L = true ->
             getSEWLMULRatio 8 L <> getSEWLMULRatio 64 LMUL_F8) /\
  getSameRatioLMUL 64 LMUL_F8 8 = DivisionByZero /\
  getSameRatioLMUL 64 LMUL_F8 8 <> Ok None.
Proof.
  repeat (split; [reflexivity|]).
  split; [|split; [reflexivity|discriminate]].
  intros L HL H.
  destruct L; try discriminate HL; vm_compute in H; discriminate H.
Qed.

(** Where [getSameRatioLMUL] does return, on a power-of-two width, and no
    legal LMUL has the ratio of the inputs at that width, it returns "no
    value". *)
Lemma getSameRatioLMUL_unrepresentable
    (SEW : Z) (l : VLMUL) (EEW : Z) (r : option VLMUL) :
  isValidSEW SEW = true ->
  isLegalVLMUL l = true ->
  isPowerOf2_32 EEW = true ->
  8 <= EEW < U32.modulus ->
  (forall L, isLegalVLMUL L = true ->
             getSEWLMULRatio EEW L <> getSEWLMULRatio SEW l) ->
  getSameRatioLMUL SEW l EEW = Ok r ->
  r = None.
Proof.
  intros HS Hl Hp Hr Hno Hg.
  destruct r as [L|]; [exfalso|reflexivity].
  pose proof (sameRatio_ok_holds SEW l EEW HS Hl Hp Hr) as H.
  unfold sameRatio_ok in H.
  rewrite Hg in H.
  apply andb_prop in H as [H _].
  apply andb_prop in H as [H Hratio].
  apply andb_prop in H as [HL _].
  exact (Hno L HL (result_Z_eqb_eq _ _ Hratio)).
Qed.

(** * Further properties of the VTYPE functions *)

(** ** encodeVTYPE and encodeXSfmmVType are injective *)

Lemma encodeVTYPE_returns_valid (l : VLMUL) (SEW : Z) (ta ma : bool) (w : Z) :
  encodeVTYPE l SEW ta ma = Ok w -> isValidSEW SEW = true.
Proof.
  unfold encodeVTYPE.
  destruct (isValidSEW SEW); [reflexivity|discriminate].
Qed.

Lemma encodeVTYPE_fields (l : VLMUL) (SEW : Z) (ta ma : bool) (w : Z) :
  encodeVTYPE l SEW ta ma = Ok w ->
  getVLMUL w = l /\ getSEW w = SEW /\
  isTailAgnostic w = ta /\ isMaskAgnostic w = ma.
Proof.
  intros Hw.
  pose proof (encodeVTYPE_returns_valid _ _ _ _ _ Hw) as H.
  valid_sew_cases H; destruct l, ta, ma;
    injection Hw as <-; repeat split; reflexivity.
Qed.

(** Two calls of [encodeVTYPE] that return the same word were given the same
    LMUL, SEW and flags. *)
Theorem encodeVTYPE_injective
    (l1 l2 : VLMUL) (SEW1 SEW2 : Z) (ta1 ta2 ma1 ma2 : bool) (w : Z) :
  encodeVTYPE l1 SEW1 ta1 ma1 = Ok w ->
  encodeVTYPE l2 SEW2 ta2 ma2 = Ok w ->
  l1 = l2 /\ SEW1 = SEW2 /\ ta1 = ta2 /\ ma1 = ma2.
Proof.
  intros H1 H2.
  apply encodeVTYPE_fields in H1 as (<- & <- & <- & <-).
  apply encodeVTYPE_fields in H2 as (<- & <- & <- & <-).
  repeat split; reflexivity.
Qed.

Lemma encodeVTYPE_injective_example :
  LMUL_F4 = LMUL_F4 /\ 64 = 64 /\ true = true /\ false = false.
Proof.
  apply (encodeVTYPE_injective LMUL_F4 LMUL_F4 64 64 true true false false 0x5E);
    reflexivity.
Defined.

Lemma encodeXSfmmVType_returns_valid (SEW Widen : Z) (AltFmt : bool) (w : Z) :
  encodeXSfmmVType SEW Widen AltFmt = Ok w ->
  isValidSEW SEW = true /\ (Widen = 1 \/ Widen = 2 \/ Widen = 4).
Proof.
  unfold encodeXSfmmVType.
  destruct (isValidSEW SEW); [|discriminate].
  cbn [assert bind].
  destruct ((Widen =? 1) || (Widen =? 2) || (Widen =? 4)) eqn:HW;
    [|discriminate].
  intros _; split; [reflexivity|].
  apply orb_prop in HW as [HW|HW]; [apply orb_prop in HW as [HW|HW]|];
    apply Z.eqb_eq in HW; auto.
Qed.

(** The word of [encodeXSfmmVType] determines SEW, Widen and AltFmt; its
    SEW field reads back through [getSEW], and its LMUL field and both
    agnostic bits are zero. *)
Theorem encodeXSfmmVType_injective
    (SEW1 SEW2 Widen1 Widen2 : Z) (AltFmt1 AltFmt2 : bool) (w : Z) :
  encodeXSfmmVType SEW1 Widen1 AltFmt1 = Ok w ->
  encodeXSfmmVType SEW2 Widen2 AltFmt2 = Ok w ->
  (SEW1 = SEW2 /\ Widen1 = Widen2 /\ AltFmt1 = AltFmt2) /\
  getSEW w = SEW1 /\ getVLMUL w = LMUL_1 /\
  isTailAgnostic w = false /\ isMaskAgnostic w = false.
Proof.
  intros H1 H2.
  destruct (encodeXSfmmVType_returns_valid _ _ _ _ H1) as [HS1 HW1].
  destruct (encodeXSfmmVType_returns_valid _ _ _ _ H2) as [HS2 HW2].
  valid_sew_cases HS1; destruct HW1 as [-> | [-> | ->]]; destruct AltFmt1;
    injection H1 as <-;
    valid_sew_cases HS2; destruct HW2 as [-> | [-> | ->]]; destruct AltFmt2;
    try discriminate H2; repeat split; reflexivity.
Qed.

Lemma encodeXSfmmVType_injective_example :
  (32 = 32 /\ 4 = 4 /\ true = true) /\
  getSEW 0x710 = 32 /\ getVLMUL 0x710 = LMUL_1 /\
  isTailAgnostic 0x710 = false /\ isMaskAgnostic 0x710 = false.
Proof.
  apply (encodeXSfmmVType_injective 32 32 4 4 true true 0x710); reflexivity.
Defined.

(** ** decodeVLMUL is injective *)

(** [decodeVLMUL] returns a multiplier among 1, 2, 4, 8, never the pair
    (1, fractional), and distinct LMUL codes decode to distinct pairs. *)
Theorem decodeVLMUL_injective (l1 l2 : VLMUL) (m : Z) (f : bool) :
  decodeVLMUL l1 = Ok (m, f) ->
  decodeVLMUL l2 = Ok (m, f) ->
  l1 = l2 /\ In m [1; 2; 4; 8] /\ (f = true -> m <> 1).
Proof.
  intros H1 H2.
  destruct l1; try discriminate H1; injection H1 as <- <-;
    destruct l2; try discriminate H2;
    (split; [reflexivity|]); (split; [simpl; auto 6|]);
    intros Hf; try discriminate Hf; vm_compute; discriminate.
Qed.

Lemma decodeVLMUL_injective_example :
  LMUL_F4 = LMUL_F4 /\ In 4 [1; 2; 4; 8] /\ (true = true -> 4 <> 1).
Proof.
  apply (decodeVLMUL_injective LMUL_F4 LMUL_F4 4 true); reflexivity.
Defined.

(** ** printVType on arbitrary words *)

Lemma string_app_assoc (a b c : string) :
  ((a ++ b) ++ c = a ++ b ++ c)%string.
Proof. induction a; simpl; [reflexivity|now rewrite IHa]. Qed.

Lemma string_app_inv_head (a b c : string) :
  (a ++ b = a ++ c)%string -> b = c.
Proof.
  induction a; simpl; intros H; [assumption|].
  injection H as H; auto.
Qed.

Lemma printVType_app (VType : Z) (OS : string) :
  printVType VType OS =
    (t <- printVType VType "" ;; Ok (OS ++ t)%string).
Proof.
  unfold printVType.
  destruct (decodeVLMUL (getVLMUL VType)) as [[m f]| | |];
    cbn [bind]; [|reflexivity..].
  destruct f, (isTailAgnostic VType), (isMaskAgnostic VType);
    cbn [String.append]; rewrite !string_app_assoc; reflexivity.
Qed.

Lemma land_7_cases (w : Z) :
  In (Z.land w 0x7) [0; 1; 2; 3; 4; 5; 6; 7].
Proof.
  assert (0 <= Z.land w 0x7 < 8) as H.
  { change 0x7 with (Z.ones 3).
    rewrite Z.land_ones by lia.
    apply Z.mod_pos_bound; lia. }
  simpl.
  assert (Z.land w 0x7 = 0 \/ Z.land w 0x7 = 1 \/ Z.land w 0x7 = 2 \/
          Z.land w 0x7 = 3 \/ Z.land w 0x7 = 4 \/ Z.land w 0x7 = 5 \/
          Z.land w 0x7 = 6 \/ Z.land w 0x7 = 7) as Hc by lia.
  intuition auto.
Qed.

(** [printVType] returns on every word whose LMUL field is not the reserved
    code 4, and is unreachable on the others; it has no other outcome. *)
Theorem printVType_outcome (VType : Z) (OS : string) :
  match printVType VType OS with
  | Ok _ => Z.land VType 0x7 <> 4
  | Unreachable => Z.land VType 0x7 = 4
  | AssertionFailed | DivisionByZero => False
  end.
Proof.
  unfold printVType, getVLMUL.
  pose proof (land_7_cases VType) as H.
  simpl in H.
  repeat (destruct H as [<- | H]; [cbn; lia || reflexivity|]).
  destruct H.
Qed.

Lemma land_low_byte (w k : Z) :
  Z.land 0xFF k = k -> Z.land (Z.land w 0xFF) k = Z.land w k.
Proof. intros H. now rewrite <- Z.land_assoc, H. Qed.

Lemma getVLMUL_low_byte (w : Z) : getVLMUL (Z.land w 0xFF) = getVLMUL w.
Proof. unfold getVLMUL. now rewrite land_low_byte. Qed.

Lemma getSEW_low_byte (w : Z) : getSEW (Z.land w 0xFF) = getSEW w.
Proof.
  unfold getSEW.
  rewrite Z.shiftr_land.
  change (Z.shiftr 0xFF 3) with 0x1F.
  now rewrite <- Z.land_assoc.
Qed.

Lemma isTailAgnostic_low_byte (w : Z) :
  isTailAgnostic (Z.land w 0xFF) = isTailAgnostic w.
Proof. unfold isTailAgnostic. now rewrite land_low_byte. Qed.

Lemma isMaskAgnostic_low_byte (w : Z) :
  isMaskAgnostic (Z.land w 0xFF) = isMaskAgnostic w.
Proof. unfold isMaskAgnostic. now rewrite land_low_byte. Qed.

Lemma printVType_land_0xFF (VType : Z) (OS : string) :
  printVType (Z.land VType 0xFF) OS = printVType VType OS.
Proof.
  unfold printVType.
  now rewrite getVLMUL_low_byte, getSEW_low_byte,
    isTailAgnostic_low_byte, isMaskAgnostic_low_byte.
Qed.

(** [printVType] only appends: what it leaves in a stream that held [OS] is
    [OS] followed by what it writes to an empty stream, and it fails on the
    same words whatever the stream holds. *)
Theorem printVType_appends (VType : Z) (OS : string) :
  printVType VType OS =
    (t <- printVType VType "" ;; Ok (OS ++ t)%string).
Proof. apply printVType_app. Qed.

(** [printVType] reads only the low eight bits of the word: bits 8 and
    above change neither the text nor the outcome. *)
Theorem printVType_low_byte (VType : Z) (OS : string) :
  printVType (Z.land VType 0xFF) OS = printVType VType OS.
Proof. apply printVType_land_0xFF. Qed.

Lemma printVType_same_text_all :
  forallb
    (fun b1 =>
       forallb (printVType_same_text b1)
               (map (fun i => 0 + Z.of_nat i) (seq 0 256)))
    (map (fun i => 0 + Z.of_nat i) (seq 0 256)) = true.
Proof. vm_compute; reflexivity. Qed.

Lemma low_byte_range (w : Z) : 0 <= Z.land w 0xFF < 0 + Z.of_nat 256.
Proof.
  change 0xFF with (Z.ones 8).
  rewrite Z.land_ones by lia.
  pose proof (Z.mod_pos_bound w (2 ^ 8) ltac:(lia)).
  simpl in *; lia.
Qed.

(** The text determines the fields: two words rendered as the same text
    agree on their low eight bits. *)
Theorem printVType_injective (VType1 VType2 : Z) (OS t : string) :
  printVType VType1 OS = Ok t ->
  printVType VType2 OS = Ok t ->
  Z.land VType1 0xFF = Z.land VType2 0xFF.
Proof.
  rewrite <- (printVType_land_0xFF VType1), <- (printVType_land_0xFF VType2).
  rewrite (printVType_app (Z.land VType1 0xFF)),
          (printVType_app (Z.land VType2 0xFF)).
  intros H1 H2.
  pose proof (forallb_range _ 0 256 printVType_same_text_all
                _ (low_byte_range VType1)) as Hc.
  cbv beta in Hc.
  pose proof (forallb_range _ 0 256 Hc _ (low_byte_range VType2)) as Hc2.
  unfold printVType_same_text in Hc2.
  destruct (printVType (Z.land VType1 0xFF) "") as [t1| | |];
    try discriminate H1.
  destruct (printVType (Z.land VType2 0xFF) "") as [t2| | |];
    try discriminate H2.
  cbn [bind] in H1, H2.
  injection H1 as <-.
  injection H2 as H2.
  apply string_app_inv_head in H2 as ->.
  rewrite String.eqb_refl in Hc2.
  now apply Z.eqb_eq in Hc2.
Qed.

Lemma printVType_injective_example :
  Z.land 0x4F 0xFF = Z.land 0x14F 0xFF.
Proof.
  apply (printVType_injective 0x4F 0x14F "" "e16, mf2, ta, mu");
    reflexivity.
Defined.

(** ** getSEWLMULRatio on arbitrary inputs *)

(** [getSEWLMULRatio] never divides by zero.  It is unreachable exactly on
    the reserved LMUL code, fails its assertion exactly when the LMUL is
    legal and SEW is below 8, and returns otherwise. *)
Theorem getSEWLMULRatio_outcome (SEW : Z) (l : VLMUL) :
  match getSEWLMULRatio SEW l with
  | Ok _ => isLegalVLMUL l = true /\ 8 <= SEW
  | AssertionFailed => isLegalVLMUL l = true /\ SEW < 8
  | Unreachable => l = LMUL_RESERVED
  | DivisionByZero => False
  end.
Proof.
  unfold getSEWLMULRatio.
  generalize (U32.mul SEW 8); intros x.
  destruct l; cbn -[Z.leb]; try reflexivity;
    destruct (Z.leb_spec 8 SEW); cbn; auto.
Qed.

Lemma U32_mul_small (a b : Z) :
  0 <= a * b < U32.modulus -> U32.mul a b = a * b.
Proof. intros H. unfold U32.mul, U32.wrap. now apply Z.mod_small. Qed.

Lemma getSEWLMULRatio_eq (SEW : Z) (l : VLMUL) :
  isLegalVLMUL l = true ->
  8 <= SEW ->
  getSEWLMULRatio SEW l = Ok (U32.mul SEW 8 / fixedPointLMUL l).
Proof.
  intros Hl HS.
  apply Z.leb_le in HS.
  unfold getSEWLMULRatio.
  generalize (U32.mul SEW 8); intros x.
  destruct l; try discriminate Hl; cbn -[Z.leb Z.div];
    rewrite HS; reflexivity.
Qed.

(** Without overflow the ratio is the floor of SEW divided by the
    multiplier: for [8 <= SEW < 2^29] and a legal LMUL of multiplier [v],
    the returned [r] satisfies [r * v <= SEW < (r + 1) * v], and [r] is at
    least 1. *)
Theorem getSEWLMULRatio_floor (SEW : Z) (l : VLMUL) (v : Q) :
  8 <= SEW < 2 ^ 29 ->
  multiplier l = Some v ->
  exists r,
    getSEWLMULRatio SEW l = Ok r /\
    1 <= r /\
    (inject_Z r * v <= inject_Z SEW)%Q /\
    (inject_Z SEW < (inject_Z r + 1) * v)%Q.
Proof.
  intros HS Hv.
  destruct (multiplier_legal _ _ Hv) as [Hl _].
  rewrite (getSEWLMULRatio_eq SEW l Hl) by lia.
  rewrite U32_mul_small by (unfold U32.modulus; lia).
  eexists; split; [reflexivity|].
  destruct l; try discriminate Hv; injection Hv as <-;
    cbv [fixedPointLMUL];
    match goal with
    | |- context [SEW * 8 / ?c] =>
        pose proof (Z.div_mod (SEW * 8) c ltac:(lia));
        pose proof (Z.mod_pos_bound (SEW * 8) c ltac:(lia));
        set (q := SEW * 8 / c) in *; clearbody q
    end;
    unfold Qle, Qlt; cbn; lia.
Qed.

Lemma getSEWLMULRatio_floor_example :
  exists r,
    getSEWLMULRatio 24 LMUL_4 = Ok r /\
    1 <= r /\
    (inject_Z r * 4 <= inject_Z 24)%Q /\
    (inject_Z 24 < (inject_Z r + 1) * 4)%Q.
Proof.
  apply (getSEWLMULRatio_floor 24 LMUL_4 4); [lia|reflexivity].
Defined.

(** When [SEW * 8] overflows to zero (SEW a multiple of 2^29) the ratio of a
    legal LMUL is 0, and [getSameRatioLMUL] then divides by zero whatever
    the requested width. *)
Theorem getSEWLMULRatio_overflow (SEW : Z) (l : VLMUL) (EEW : Z) :
  8 <= SEW ->
  SEW mod 2 ^ 29 = 0 ->
  isLegalVLMUL l = true ->
  getSEWLMULRatio SEW l = Ok 0 /\
  getSameRatioLMUL SEW l EEW = DivisionByZero.
Proof.
  intros HS Hmod Hl.
  assert (U32.mul SEW 8 = 0) as Hmul.
  { unfold U32.mul, U32.wrap, U32.modulus.
    change (2 ^ 32) with (2 ^ 29 * 8).
    rewrite Z.mul_mod_distr_r by lia.
    rewrite Hmod; reflexivity. }
  assert (getSEWLMULRatio SEW l = Ok 0) as Hr.
  { rewrite (getSEWLMULRatio_eq SEW l Hl HS), Hmul.
    destruct l; reflexivity. }
  split; [assumption|].
  unfold getSameRatioLMUL.
  rewrite Hr; reflexivity.
Qed.

Lemma getSEWLMULRatio_overflow_example :
  getSEWLMULRatio (2 ^ 29) LMUL_1 = Ok 0 /\
  getSameRatioLMUL (2 ^ 29) LMUL_1 32 = DivisionByZero.
Proof.
  apply (getSEWLMULRatio_overflow (2 ^ 29) LMUL_1 32);
    [lia|reflexivity|reflexivity].
Defined.

(** ** getSameRatioLMUL: outcomes *)

Lemma ratio_positive (SEW : Z) (l : VLMUL) :
  isLegalVLMUL l = true -> 8 <= SEW < 2 ^ 29 ->
  0 < U32.mul SEW 8 / fixedPointLMUL l.
Proof.
  intros Hl HS.
  rewrite U32_mul_small by (unfold U32.modulus; lia).
  apply Z.div_str_pos.
  destruct l; try discriminate Hl; cbv [fixedPointLMUL]; lia.
Qed.

(** For [8 <= SEW < 2^29], a legal LMUL and any requested width,
    [getSameRatioLMUL] divides by zero when [EEW * 8] (as a 32-bit product)
    is below the ratio, and returns in every other case. *)
Theorem getSameRatioLMUL_returns_iff (SEW : Z) (l : VLMUL) (EEW : Z) :
  8 <= SEW < 2 ^ 29 ->
  isLegalVLMUL l = true ->
  exists r,
    getSEWLMULRatio SEW l = Ok r /\
    0 < r /\
    if U32.mul EEW 8 <? r
    then getSameRatioLMUL SEW l EEW = DivisionByZero
    else returned (getSameRatioLMUL SEW l EEW) = true.
Proof.
  intros HS Hl.
  pose proof (ratio_positive SEW l Hl HS) as Hr.
  exists (U32.mul SEW 8 / fixedPointLMUL l).
  split; [apply getSEWLMULRatio_eq; [assumption|lia]|].
  split; [assumption|].
  unfold getSameRatioLMUL.
  rewrite (getSEWLMULRatio_eq SEW l Hl) by lia.
  set (r := U32.mul SEW 8 / fixedPointLMUL l) in *; clearbody r.
  assert (0 <= U32.mul EEW 8) as Hx.
  { unfold U32.mul, U32.wrap, U32.modulus.
    apply Z.mod_pos_bound; lia. }
  set (x := U32.mul EEW 8) in *; clearbody x.
  cbn [bind]; unfold U32.div.
  replace (r =? 0) with false by (symmetry; apply Z.eqb_neq; lia).
  change (8 =? 0) with false.
  cbn [bind].
  destruct (Z.ltb_spec x r) as [Hlt|Hge].
  - rewrite Z.div_small by lia. reflexivity.
  - assert (0 < x / r) as Hq by (apply Z.div_str_pos; lia).
    set (q := x / r) in *; clearbody q.
    replace (q =? 0) with false by (symmetry; apply Z.eqb_neq; lia).
    destruct (q <? 8); cbn [bind];
      match goal with
      | |- context [negb ?b] => destruct b
      end; reflexivity.
Qed.

Lemma getSameRatioLMUL_returns_iff_example :
  exists r,
    getSEWLMULRatio 64 LMUL_F4 = Ok r /\
    0 < r /\
    if U32.mul 16 8 <? r
    then getSameRatioLMUL 64 LMUL_F4 16 = DivisionByZero
    else returned (getSameRatioLMUL 64 LMUL_F4 16) = true.
Proof.
  apply (getSameRatioLMUL_returns_iff 64 LMUL_F4 16); [lia|reflexivity].
Defined.

Ltac q_absurd :=
  exfalso;
  match goal with
  | H : (_ < _)%Q |- _ => vm_compute in H; discriminate H
  | H : (_ <= _)%Q |- _ => vm_compute in H; apply H; reflexivity
  end.

(** For valid SEW and EEW and a legal LMUL of multiplier [v], let
    [q = EEW * v / SEW] be the multiplier that keeps the ratio.  Then
    [getSameRatioLMUL] returns the LMUL of multiplier [q] when
    [1/8 <= q <= 8], returns "no value" when [q > 8], and divides by zero
    when [q < 1/8]. *)
Theorem getSameRatioLMUL_spec (SEW : Z) (l : VLMUL) (EEW : Z) (v : Q) :
  isValidSEW SEW = true ->
  multiplier l = Some v ->
  isValidSEW EEW = true ->
  ((inject_Z EEW * v / inject_Z SEW < 1 # 8)%Q ->
   getSameRatioLMUL SEW l EEW = DivisionByZero) /\
  ((8 < inject_Z EEW * v / inject_Z SEW)%Q ->
   getSameRatioLMUL SEW l EEW = Ok None) /\
  ((1 # 8 <= inject_Z EEW * v / inject_Z SEW)%Q ->
   (inject_Z EEW * v / inject_Z SEW <= 8)%Q ->
   exists L v',
     getSameRatioLMUL SEW l EEW = Ok (Some L) /\
     multiplier L = Some v' /\
     (v' == inject_Z EEW * v / inject_Z SEW)%Q).
Proof.
  intros HS Hv HE.
  valid_sew_cases HS; valid_sew_cases HE;
    destruct l; try discriminate Hv; injection Hv as <-;
    match goal with
    | |- context [getSameRatioLMUL ?a ?b ?c] =>
        let r := eval vm_compute in (getSameRatioLMUL a b c) in
        let E := fresh "E" in
        assert (getSameRatioLMUL a b c = r) as E by (vm_compute; reflexivity);
        rewrite E; clear E
    end;
    (split; [intros H; first [reflexivity | q_absurd]|]);
    (split; [intros H; first [reflexivity | q_absurd]|]);
    intros H1 H2;
    first [ do 2 eexists; split; [reflexivity|];
            split; [reflexivity | vm_compute; reflexivity]
          | q_absurd ].
Qed.

Lemma getSameRatioLMUL_spec_example :
  ((inject_Z 8 * (1 # 2) / inject_Z 32 < 1 # 8)%Q ->
   getSameRatioLMUL 32 LMUL_F2 8 = DivisionByZero) /\
  ((8 < inject_Z 8 * (1 # 2) / inject_Z 32)%Q ->
   getSameRatioLMUL 32 LMUL_F2 8 = Ok None) /\
  ((1 # 8 <= inject_Z 8 * (1 # 2) / inject_Z 32)%Q ->
   (inject_Z 8 * (1 # 2) / inject_Z 32 <= 8)%Q ->
   exists L v',
     getSameRatioLMUL 32 LMUL_F2 8 = Ok (Some L) /\
     multiplier L = Some v' /\
     (v' == inject_Z 8 * (1 # 2) / inject_Z 32)%Q).
Proof.
  apply (getSameRatioLMUL_spec 32 LMUL_F2 8 (1 # 2)); reflexivity.
Defined.

(** ** getSameRatioLMUL: changing the width back and forth *)

Lemma getSameRatioLMUL_same_width (SEW : Z) (l : VLMUL) :
  isValidSEW SEW = true ->
  isLegalVLMUL l = true ->
  getSameRatioLMUL SEW l SEW = Ok (Some l).
Proof.
  intros HS Hl.
  valid_sew_cases HS; destruct l; try discriminate Hl; reflexivity.
Qed.

(** Requesting the width one already has always succeeds and returns the
    LMUL one already has, for every valid SEW and legal LMUL. *)
Theorem getSameRatioLMUL_identity (SEW : Z) (l : VLMUL) :
  isValidSEW SEW = true ->
  isLegalVLMUL l = true ->
  getSameRatioLMUL SEW l SEW = Ok (Some l).
Proof. apply getSameRatioLMUL_same_width. Qed.

Lemma getSameRatioLMUL_identity_example :
  getSameRatioLMUL 8 LMUL_F8 8 = Ok (Some LMUL_F8).
Proof.
  apply (getSameRatioLMUL_identity 8 LMUL_F8); reflexivity.
Defined.

(** After a successful change from (SEW, l) to width E1 with LMUL L1, the
    pair (E1, L1) behaves as (SEW, l) for every further width, whatever the
    outcome; in particular changing back to SEW returns [l]. *)
Theorem getSameRatioLMUL_chain (SEW : Z) (l : VLMUL) (E1 : Z) (L1 : VLMUL) :
  isValidSEW SEW = true ->
  isLegalVLMUL l = true ->
  isPowerOf2_32 E1 = true ->
  8 <= E1 < U32.modulus ->
  getSameRatioLMUL SEW l E1 = Ok (Some L1) ->
  (forall E2, getSameRatioLMUL E1 L1 E2 = getSameRatioLMUL SEW l E2) /\
  getSameRatioLMUL E1 L1 SEW = Ok (Some l).
Proof.
  intros HS Hl Hp Hr Hg.
  pose proof (sameRatio_ok_holds SEW l E1 HS Hl Hp Hr) as H.
  unfold sameRatio_ok in H.
  rewrite Hg in H.
  apply andb_prop in H as [H _].
  apply andb_prop in H as [_ Hratio].
  apply result_Z_eqb_eq in Hratio.
  assert (forall E2, getSameRatioLMUL E1 L1 E2 = getSameRatioLMUL SEW l E2)
    as Hall.
  { intros E2. unfold getSameRatioLMUL. now rewrite Hratio. }
  split; [assumption|].
  rewrite Hall.
  now apply getSameRatioLMUL_same_width.
Qed.

Lemma getSameRatioLMUL_chain_example :
  (forall E2,
      getSameRatioLMUL 8 LMUL_F2 E2 = getSameRatioLMUL 32 LMUL_2 E2) /\
  getSameRatioLMUL 8 LMUL_F2 32 = Ok (Some LMUL_2).
Proof.
  apply (getSameRatioLMUL_chain 32 LMUL_2 8 LMUL_F2); try reflexivity.
  unfold U32.modulus; lia.
Defined.

(** * The CPU table functions *)

Section CPUTableFacts.

Variable RISCVCPUInfo : list RISCV.CPUInfo.
Variable TuneProcs : list string.
Variable is64Bit : RISCV.CPUInfo -> bool.
Variable isValid : RISCV.CPUModel -> bool.
Variable CPUModel_eq : RISCV.CPUModel -> RISCV.CPUModel -> bool.
Variable RISCVISAInfo : Type.
Variable parseArchString : string -> bool -> option RISCVISAInfo.
Variable toFeatures : RISCVISAInfo -> bool -> list string.

Local Abbreviation names := (map RISCV.Name RISCVCPUInfo).
Local Abbreviation getCPUInfoByName := (RISCV.getCPUInfoByName RISCVCPUInfo).
Local Abbreviation getCPUModel := (RISCV.getCPUModel RISCVCPUInfo).
Local Abbreviation getMArchFromMcpu := (RISCV.getMArchFromMcpu RISCVCPUInfo).
Local Abbreviation parseCPU := (RISCV.parseCPU RISCVCPUInfo is64Bit).
Local Abbreviation parseTuneCPU :=
  (RISCV.parseTuneCPU RISCVCPUInfo TuneProcs is64Bit).
Local Abbreviation fillValidCPUArchList :=
  (RISCV.fillValidCPUArchList RISCVCPUInfo is64Bit).
Local Abbreviation fillValidTuneCPUArchList :=
  (RISCV.fillValidTuneCPUArchList RISCVCPUInfo TuneProcs is64Bit).
Local Abbreviation getCPUNameFromCPUModel :=
  (RISCV.getCPUNameFromCPUModel RISCVCPUInfo isValid CPUModel_eq).
Local Abbreviation getFeaturesForCPU :=
  (RISCV.getFeaturesForCPU RISCVCPUInfo RISCVISAInfo parseArchString toFeatures).

Lemma getCPUInfoByName_Some (CPU : string) (Info : RISCV.CPUInfo) :
  getCPUInfoByName CPU = Some Info ->
  In Info RISCVCPUInfo /\ RISCV.Name Info = CPU.
Proof.
  unfold RISCV.getCPUInfoByName.
  intros H.
  apply find_some in H as [Hin Heq].
  split; [assumption|now apply String.eqb_eq].
Qed.

Lemma getCPUInfoByName_None (CPU : string) :
  getCPUInfoByName CPU = None <-> ~ In CPU names.
Proof.
  unfold RISCV.getCPUInfoByName.
  split.
  - intros H Hin.
    apply in_map_iff in Hin as (C & <- & HC).
    pose proof (find_none _ _ H C HC) as Hne.
    cbv beta in Hne.
    now rewrite String.eqb_refl in Hne.
  - intros Hnot.
    destruct (find _ _) as [C|] eqn:Hf; [|reflexivity].
    apply find_some in Hf as [Hin Heq].
    apply String.eqb_eq in Heq.
    exfalso; apply Hnot, in_map_iff; eauto.
Qed.

Lemma getCPUInfoByName_unique (CPU : string) (C : RISCV.CPUInfo) :
  NoDup names -> In C RISCVCPUInfo -> RISCV.Name C = CPU ->
  getCPUInfoByName CPU = Some C.
Proof.
  unfold RISCV.getCPUInfoByName.
  induction RISCVCPUInfo as [|D rest IH]; intros Hnd Hin Hname; [destruct Hin|].
  simpl in *.
  inversion Hnd as [|? ? Hnotin Hnd']; subst.
  destruct Hin as [->|Hin].
  - now rewrite String.eqb_refl.
  - destruct (String.eqb_spec (RISCV.Name D) (RISCV.Name C)) as [Heq|_].
    + exfalso; apply Hnotin; rewrite Heq; now apply in_map.
    + now apply IH.
Qed.

Lemma fill_loop (p : RISCV.CPUInfo -> bool) (l : list RISCV.CPUInfo)
    (Values : list string) :
  fold_left (fun V C => if p C then V ++ [RISCV.Name C] else V) l Values
  = Values ++ map RISCV.Name (filter p l).
Proof.
  revert Values.
  induction l as [|C l IH]; intros Values; simpl.
  - now rewrite app_nil_r.
  - rewrite IH.
    destruct (p C); [|reflexivity].
    now rewrite <- app_assoc.
Qed.

Lemma append_loop (l Values : list string) :
  fold_left (fun V NAME => V ++ [NAME]) l Values = Values ++ l.
Proof.
  revert Values.
  induction l as [|x l IH]; intros Values; simpl.
  - now rewrite app_nil_r.
  - now rewrite IH, <- app_assoc.
Qed.

Lemma fillValidCPUArchList_eq (Values : list string) (IsRV64 : bool) :
  fillValidCPUArchList Values IsRV64
  = Values ++ map RISCV.Name
               (filter (fun C => Bool.eqb IsRV64 (is64Bit C)) RISCVCPUInfo).
Proof. apply fill_loop. Qed.

Lemma fillValidTuneCPUArchList_eq (Values : list string) (IsRV64 : bool) :
  fillValidTuneCPUArchList Values IsRV64
  = fillValidCPUArchList Values IsRV64 ++ TuneProcs.
Proof.
  unfold RISCV.fillValidTuneCPUArchList, RISCV.fillValidCPUArchList.
  apply append_loop.
Qed.

Lemma parseCPU_true_listed (CPU : string) (IsRV64 : bool) :
  parseCPU CPU IsRV64 = true ->
  In CPU (fillValidCPUArchList [] IsRV64).
Proof.
  unfold RISCV.parseCPU.
  destruct (getCPUInfoByName CPU) as [Info|] eqn:Hf; [|discriminate].
  intros Hb.
  apply getCPUInfoByName_Some in Hf as [Hin <-].
  rewrite fillValidCPUArchList_eq.
  apply in_map, filter_In.
  split; [assumption|].
  apply Bool.eqb_prop in Hb as ->.
  apply Bool.eqb_reflx.
Qed.

Lemma listed_parseCPU_true (CPU : string) (IsRV64 : bool) :
  NoDup names ->
  In CPU (fillValidCPUArchList [] IsRV64) ->
  parseCPU CPU IsRV64 = true.
Proof.
  intros Hnd Hin.
  rewrite fillValidCPUArchList_eq in Hin.
  apply in_map_iff in Hin as (C & <- & HC).
  apply filter_In in HC as [HC Hb].
  unfold RISCV.parseCPU.
  rewrite (getCPUInfoByName_unique _ C Hnd HC eq_refl).
  apply Bool.eqb_prop in Hb as ->.
  apply Bool.eqb_reflx.
Qed.

(** A name is in the table exactly when [parseCPU] accepts it for one of
    the two register widths, and no name is accepted for both. *)
Theorem parseCPU_exclusive (CPU : string) :
  (In CPU names <->
   xorb (parseCPU CPU true) (parseCPU CPU false) = true) /\
  parseCPU CPU true && parseCPU CPU false = false.
Proof.
  pose proof (getCPUInfoByName_None CPU) as Hnone.
  unfold RISCV.parseCPU.
  destruct (getCPUInfoByName CPU) as [Info|] eqn:Hf.
  - apply getCPUInfoByName_Some in Hf as [Hin <-].
    split; [|destruct (is64Bit Info); reflexivity].
    split; [intros _; destruct (is64Bit Info); reflexivity|].
    intros _; now apply in_map.
  - split; [|reflexivity].
    split; [intros Hin; now apply Hnone in Hin|discriminate].
Qed.

(** Every name [parseCPU] accepts for a width is among the names
    [fillValidCPUArchList] appends for that width, whatever the list held
    before. *)
Theorem parseCPU_listed (CPU : string) (IsRV64 : bool) (Values : list string) :
  parseCPU CPU IsRV64 = true ->
  In CPU (fillValidCPUArchList Values IsRV64).
Proof.
  intros H.
  apply parseCPU_true_listed in H.
  rewrite fillValidCPUArchList_eq in *.
  apply in_or_app; right; exact H.
Qed.

(** When the names of the table are pairwise distinct, the names
    [fillValidCPUArchList] produces are exactly those [parseCPU] accepts. *)
Theorem fillValidCPUArchList_accepted (CPU : string) (IsRV64 : bool) :
  NoDup names ->
  (In CPU (fillValidCPUArchList [] IsRV64) <-> parseCPU CPU IsRV64 = true).
Proof.
  intros Hnd; split;
    [now apply listed_parseCPU_true | apply parseCPU_true_listed].
Qed.

(** [fillValidCPUArchList] keeps what the list held and appends behind it;
    the RV64 and the RV32 lists together have one name per table entry; and
    [fillValidTuneCPUArchList] is the same list followed by the tune-only
    names. *)
Theorem fillValidCPUArchList_partition (Values : list string) (IsRV64 : bool) :
  fillValidCPUArchList Values IsRV64
    = Values ++ fillValidCPUArchList [] IsRV64 /\
  (List.length (fillValidCPUArchList [] true)
   + List.length (fillValidCPUArchList [] false)
   = List.length RISCVCPUInfo)%nat /\
  fillValidTuneCPUArchList Values IsRV64
    = fillValidCPUArchList Values IsRV64 ++ TuneProcs.
Proof.
  split; [now rewrite !fillValidCPUArchList_eq|].
  split; [|apply fillValidTuneCPUArchList_eq].
  rewrite !fillValidCPUArchList_eq; simpl.
  rewrite !List.length_map.
  induction RISCVCPUInfo as [|C l IH]; simpl; [reflexivity|].
  destruct (is64Bit C); simpl; lia.
Qed.

(** With pairwise distinct table names, [parseTuneCPU] accepts exactly the
    names [fillValidTuneCPUArchList] produces: the tune-only names for both
    widths, and the CPUs of the requested width. *)
Theorem parseTuneCPU_listed (TuneCPU : string) (IsRV64 : bool) :
  NoDup names ->
  (parseTuneCPU TuneCPU IsRV64 = true <->
   In TuneCPU (fillValidTuneCPUArchList [] IsRV64)).
Proof.
  intros Hnd.
  rewrite fillValidTuneCPUArchList_eq, in_app_iff.
  unfold RISCV.parseTuneCPU.
  destruct (find (String.eqb TuneCPU) TuneProcs) as [n|] eqn:Hf.
  - apply find_some in Hf as [Hin Heq].
    apply String.eqb_eq in Heq; subst n.
    split; auto.
  - split.
    + intros H; left; now apply parseCPU_true_listed.
    + intros [H|H]; [now apply listed_parseCPU_true|].
      pose proof (find_none _ _ Hf _ H) as Hne.
      now rewrite String.eqb_refl in Hne.
Qed.

(** A name that is not in the table gets the defaults: no entry, the model
    {0, 0, 0}, an empty march, no fast unaligned access, rejection by
    [parseCPU], and [getFeaturesForCPU] hands the feature list back as it
    received it. *)
Theorem unknown_CPU_defaults (CPU : string) (IsRV64 NeedPlus : bool)
    (EnabledFeatures : list string) :
  ~ In CPU names ->
  getCPUInfoByName CPU = None /\
  getCPUModel CPU
    = {| RISCV.MVendorID := 0; RISCV.MArchID := 0; RISCV.MImpID := 0 |} /\
  getMArchFromMcpu CPU = ""%string /\
  RISCV.hasFastScalarUnalignedAccess RISCVCPUInfo CPU = false /\
  RISCV.hasFastVectorUnalignedAccess RISCVCPUInfo CPU = false /\
  parseCPU CPU IsRV64 = false /\
  getFeaturesForCPU CPU EnabledFeatures NeedPlus = Some EnabledFeatures.
Proof.
  intros H.
  apply getCPUInfoByName_None in H.
  unfold RISCV.getFeaturesForCPU, RISCV.getMArchFromMcpu, RISCV.getCPUModel,
    RISCV.hasFastScalarUnalignedAccess, RISCV.hasFastVectorUnalignedAccess,
    RISCV.parseCPU.
  rewrite H.
  repeat split; reflexivity.
Qed.

(** When [operator==] on models is an equality test and the table names
    are pairwise distinct, a non-empty name returned for a model is the
    name of a CPU with that model: [getCPUModel] maps it back, and the
    model is valid. *)
Theorem getCPUNameFromCPUModel_roundtrip (M : RISCV.CPUModel) :
  (forall a b, CPUModel_eq a b = true -> a = b) ->
  NoDup names ->
  getCPUNameFromCPUModel M <> ""%string ->
  getCPUModel (getCPUNameFromCPUModel M) = M /\
  RISCV.hasValidCPUModel RISCVCPUInfo isValid (getCPUNameFromCPUModel M)
    = true.
Proof.
  intros Heq Hnd.
  unfold RISCV.hasValidCPUModel.
  unfold RISCV.getCPUNameFromCPUModel.
  destruct (isValid M) eqn:Hv; cbn [negb]; [|intros H; now elim H].
  destruct (find _ _) as [C|] eqn:Hf; [|intros H; now elim H].
  intros _.
  apply find_some in Hf as [Hin Hm].
  apply Heq in Hm.
  unfold RISCV.getCPUModel.
  rewrite (getCPUInfoByName_unique _ C Hnd Hin eq_refl).
  rewrite Hm; auto.
Qed.

Lemma features_loop_plus (Fs acc : list string) :
  fold_left
    (fun (acc : option (list string)) F =>
       match acc with
       | None => None
       | Some E => if true then Some (E ++ [F])
                   else option_map (fun t => E ++ [t]) (RISCV.substr1 F)
       end) Fs (Some acc) = Some (acc ++ Fs).
Proof.
  revert acc.
  induction Fs as [|F Fs IH]; intros acc; simpl.
  - now rewrite app_nil_r.
  - now rewrite IH, <- app_assoc.
Qed.

Lemma substring_whole (s : string) : String.substring 0 (String.length s) s = s.
Proof. induction s as [|c s IH]; simpl; [reflexivity|now rewrite IH]. Qed.

Lemma substr1_substring (F rest : string) :
  RISCV.substr1 F = Some rest ->
  String.substring 1 (String.length F - 1) F = rest.
Proof.
  destruct F as [|c r]; [discriminate|].
  intros H; injection H as <-.
  cbn [String.length String.substring Nat.sub].
  rewrite Nat.sub_0_r.
  apply substring_whole.
Qed.

Lemma features_loop_strip (Fs acc : list string) :
  Forall (fun F => F <> ""%string) Fs ->
  fold_left
    (fun (acc : option (list string)) F =>
       match acc with
       | None => None
       | Some E => if false then Some (E ++ [F])
                   else option_map (fun t => E ++ [t]) (RISCV.substr1 F)
       end) Fs (Some acc)
  = Some (acc ++ map (fun F => String.substring 1 (String.length F - 1) F) Fs).
Proof.
  revert acc.
  induction Fs as [|F Fs IH]; intros acc HF.
  - simpl. now rewrite app_nil_r.
  - inversion HF as [|? ? HFne HFs]; subst.
    cbn [fold_left map].
    destruct (RISCV.substr1 F) as [rest|] eqn:Hs;
      [|destruct F; [now elim HFne|discriminate Hs]].
    cbn [option_map].
    rewrite IH by assumption.
    rewrite (substr1_substring _ _ Hs), <- app_assoc.
    reflexivity.
Qed.

Lemma features_loop_failed (Fs : list string) :
  fold_left
    (fun (acc : option (list string)) F =>
       match acc with
       | None => None
       | Some E => if false then Some (E ++ [F])
                   else option_map (fun t => E ++ [t]) (RISCV.substr1 F)
       end) Fs None = None.
Proof. induction Fs as [|F Fs IH]; [reflexivity|exact IH]. Qed.

Lemma features_loop_empty (Fs acc : list string) :
  forallb (fun F => negb (String.eqb F "")) Fs = false ->
  fold_left
    (fun (acc : option (list string)) F =>
       match acc with
       | None => None
       | Some E => if false then Some (E ++ [F])
                   else option_map (fun t => E ++ [t]) (RISCV.substr1 F)
       end) Fs (Some acc) = None.
Proof.
  revert acc.
  induction Fs as [|F Fs IH]; intros acc H; [discriminate H|].
  cbn [forallb] in H.
  cbn [fold_left].
  destruct F as [|c r].
  - apply features_loop_failed.
  - cbn [RISCV.substr1 option_map].
    apply IH.
    exact H.
Qed.

Lemma forallb_nonempty (Fs : list string) :
  forallb (fun F => negb (String.eqb F "")) Fs = true ->
  Forall (fun F => F <> ""%string) Fs.
Proof.
  intros H.
  apply Forall_forall.
  intros F HF.
  rewrite forallb_forall in H.
  specialize (H F HF).
  apply negb_true_iff in H.
  now apply String.eqb_neq.
Qed.

(** For a CPU with a march that parses, the features returned with
    [NeedPlus] are the strings of [toFeatures] in order, whatever these
    are, the previous contents being dropped.  Without [NeedPlus] they are
    the same strings less their first character when none of them is empty,
    and [substr] throws when one of them is. *)
Theorem getFeaturesForCPU_NeedPlus (CPU : string) (E : list string)
    (RII : RISCVISAInfo) :
  getMArchFromMcpu CPU <> ""%string ->
  parseArchString (getMArchFromMcpu CPU) true = Some RII ->
  getFeaturesForCPU CPU E true = Some (toFeatures RII false) /\
  getFeaturesForCPU CPU E false
    = if forallb (fun F => negb (String.eqb F "")) (toFeatures RII false)
      then Some (map (fun F => String.substring 1 (String.length F - 1) F)
                     (toFeatures RII false))
      else None.
Proof.
  intros Hm Hp.
  unfold RISCV.getFeaturesForCPU.
  apply String.eqb_neq in Hm.
  rewrite Hm, Hp.
  split.
  - apply (features_loop_plus _ []).
  - destruct (forallb _ (toFeatures RII false)) eqn:HF.
    + apply (features_loop_strip _ []).
      now apply forallb_nonempty.
    + now apply features_loop_empty.
Qed.

End CPUTableFacts.

(** ** The statements on a sample table *)

Lemma SampleTable_names_NoDup : NoDup (map RISCV.Name SampleTable.cpus).
Proof.
  repeat constructor; simpl; intuition discriminate.
Qed.

Lemma SampleTable_CPUModel_eq_sound (a b : RISCV.CPUModel) :
  SampleTable.CPUModel_eq a b = true -> a = b.
Proof.
  destruct a, b; unfold SampleTable.CPUModel_eq; simpl.
  intros H.
  apply andb_prop in H as [H H3].
  apply andb_prop in H as [H1 H2].
  apply Z.eqb_eq in H1, H2, H3.
  now subst.
Qed.

Lemma parseCPU_listed_example :
  In "vendor-x1"%string
     (RISCV.fillValidCPUArchList SampleTable.cpus SampleTable.is64Bit
        ["first"%string] true).
Proof.
  apply (parseCPU_listed SampleTable.cpus SampleTable.is64Bit
           "vendor-x1" true ["first"%string]).
  reflexivity.
Defined.

Lemma fillValidCPUArchList_accepted_example :
  In "generic-rv32"%string
     (RISCV.fillValidCPUArchList SampleTable.cpus SampleTable.is64Bit [] false)
  <-> RISCV.parseCPU SampleTable.cpus SampleTable.is64Bit "generic-rv32" false
      = true.
Proof.
  apply (fillValidCPUArchList_accepted SampleTable.cpus SampleTable.is64Bit
           "generic-rv32" false).
  exact SampleTable_names_NoDup.
Defined.

Lemma parseTuneCPU_listed_example :
  RISCV.parseTuneCPU SampleTable.cpus SampleTable.tunes SampleTable.is64Bit
    "rocket" false = true
  <-> In "rocket"%string
         (RISCV.fillValidTuneCPUArchList SampleTable.cpus SampleTable.tunes
            SampleTable.is64Bit [] false).
Proof.
  apply (parseTuneCPU_listed SampleTable.cpus SampleTable.tunes
           SampleTable.is64Bit "rocket" false).
  exact SampleTable_names_NoDup.
Defined.

Lemma unknown_CPU_defaults_example :
  RISCV.getCPUInfoByName SampleTable.cpus "no-such-cpu" = None /\
  RISCV.getCPUModel SampleTable.cpus "no-such-cpu"
    = {| RISCV.MVendorID := 0; RISCV.MArchID := 0; RISCV.MImpID := 0 |} /\
  RISCV.getMArchFromMcpu SampleTable.cpus "no-such-cpu" = ""%string /\
  RISCV.hasFastScalarUnalignedAccess SampleTable.cpus "no-such-cpu" = false /\
  RISCV.hasFastVectorUnalignedAccess SampleTable.cpus "no-such-cpu" = false /\
  RISCV.parseCPU SampleTable.cpus SampleTable.is64Bit "no-such-cpu" true
    = false /\
  RISCV.getFeaturesForCPU SampleTable.cpus (list string)
    SampleTable.parseArchString SampleTable.toFeatures
    "no-such-cpu" ["+old"%string] false = Some ["+old"%string].
Proof.
  apply (unknown_CPU_defaults SampleTable.cpus SampleTable.is64Bit
           (list string) SampleTable.parseArchString SampleTable.toFeatures
           "no-such-cpu" true false ["+old"%string]).
  simpl; intuition discriminate.
Defined.

Lemma getCPUNameFromCPUModel_roundtrip_example :
  RISCV.getCPUNameFromCPUModel SampleTable.cpus SampleTable.isValid
    SampleTable.CPUModel_eq
    {| RISCV.MVendorID := 0x489; RISCV.MArchID := 0x8000000000000007;
       RISCV.MImpID := 0x20181004 |} = "vendor-x1"%string /\
  RISCV.getCPUModel SampleTable.cpus
    (RISCV.getCPUNameFromCPUModel SampleTable.cpus SampleTable.isValid
       SampleTable.CPUModel_eq
       {| RISCV.MVendorID := 0x489; RISCV.MArchID := 0x8000000000000007;
          RISCV.MImpID := 0x20181004 |})
  = {| RISCV.MVendorID := 0x489; RISCV.MArchID := 0x8000000000000007;
       RISCV.MImpID := 0x20181004 |} /\
  RISCV.hasValidCPUModel SampleTable.cpus SampleTable.isValid
    (RISCV.getCPUNameFromCPUModel SampleTable.cpus SampleTable.isValid
       SampleTable.CPUModel_eq
       {| RISCV.MVendorID := 0x489; RISCV.MArchID := 0x8000000000000007;
          RISCV.MImpID := 0x20181004 |}) = true.
Proof.
  split; [reflexivity|].
  apply (getCPUNameFromCPUModel_roundtrip SampleTable.cpus SampleTable.isValid
           SampleTable.CPUModel_eq).
  - exact SampleTable_CPUModel_eq_sound.
  - exact SampleTable_names_NoDup.
  - vm_compute; discriminate.
Defined.

Lemma getFeaturesForCPU_NeedPlus_example :
  RISCV.getFeaturesForCPU SampleTable.cpus (list string)
    SampleTable.parseArchString SampleTable.toFeatures
    "vendor-x1" ["+old"%string] true = Some ["+m"; "+a"; "+c"]%string /\
  RISCV.getFeaturesForCPU SampleTable.cpus (list string)
    SampleTable.parseArchString SampleTable.toFeatures
    "vendor-x1" ["+old"%string] false
  = Some ["m"; "a"; "c"]%string.
Proof.
  apply (getFeaturesForCPU_NeedPlus SampleTable.cpus (list string)
           SampleTable.parseArchString SampleTable.toFeatures
           "vendor-x1" ["+old"%string] ["+m"; "+a"; "+c"]%string).
  - vm_compute; discriminate.
  - reflexivity.
Defined.

(** * The x86_64 floating-point environment *)

Section FEnvFacts.

Variable fldenv_image : FEnv.X87StateDescriptor -> FEnv.X87StateDescriptor.
Variables FE_INVALID FE_DIVBYZERO FE_OVERFLOW FE_UNDERFLOW FE_INEXACT : Z.
Variable FE_DENORM : option Z.
Variables FE_TONEAREST FE_DOWNWARD FE_UPWARD FE_TOWARDZERO : Z.

Local Abbreviation get_status_value_for_except :=
  (FEnv.get_status_value_for_except
     FE_INVALID FE_DIVBYZERO FE_OVERFLOW FE_UNDERFLOW FE_INEXACT FE_DENORM).
Local Abbreviation exception_status_to_macro :=
  (FEnv.exception_status_to_macro
     FE_INVALID FE_DIVBYZERO FE_OVERFLOW FE_UNDERFLOW FE_INEXACT FE_DENORM).
Local Abbreviation enable_except :=
  (FEnv.enable_except
     FE_INVALID FE_DIVBYZERO FE_OVERFLOW FE_UNDERFLOW FE_INEXACT FE_DENORM).
Local Abbreviation disable_except :=
  (FEnv.disable_except
     FE_INVALID FE_DIVBYZERO FE_OVERFLOW FE_UNDERFLOW FE_INEXACT FE_DENORM).
Local Abbreviation get_except :=
  (FEnv.get_except
     FE_INVALID FE_DIVBYZERO FE_OVERFLOW FE_UNDERFLOW FE_INEXACT FE_DENORM).
Local Abbreviation clear_except :=
  (FEnv.clear_except fldenv_image
     FE_INVALID FE_DIVBYZERO FE_OVERFLOW FE_UNDERFLOW FE_INEXACT FE_DENORM).
Local Abbreviation test_except :=
  (FEnv.test_except
     FE_INVALID FE_DIVBYZERO FE_OVERFLOW FE_UNDERFLOW FE_INEXACT FE_DENORM).
Local Abbreviation set_except :=
  (FEnv.set_except fldenv_image
     FE_INVALID FE_DIVBYZERO FE_OVERFLOW FE_UNDERFLOW FE_INEXACT FE_DENORM).
Local Abbreviation get_round :=
  (FEnv.get_round FE_TONEAREST FE_DOWNWARD FE_UPWARD FE_TOWARDZERO).
Local Abbreviation separate_macros :=
  (FEnv.separate_macros
     FE_INVALID FE_DIVBYZERO FE_OVERFLOW FE_UNDERFLOW FE_INEXACT FE_DENORM).
Local Abbreviation supported_flags := (FEnv.supported_flags FE_DENORM).
Local Abbreviation set_round :=
  (FEnv.set_round FE_TONEAREST FE_DOWNWARD FE_UPWARD FE_TOWARDZERO).
Local Abbreviation set_env := (FEnv.set_env fldenv_image).

Lemma uint16_land (z : Z) : FEnv.uint16 z = Z.land z (Z.ones 16).
Proof. unfold FEnv.uint16. now rewrite Z.land_ones by lia. Qed.

Lemma uint32_land (z : Z) : FEnv.uint32 z = Z.land z (Z.ones 32).
Proof. unfold FEnv.uint32. now rewrite Z.land_ones by lia. Qed.

Lemma land_low6 (s k : Z) :
  Z.land 0x3F k = k -> Z.land s k = Z.land (Z.land s 0x3F) k.
Proof. intros H. now rewrite <- Z.land_assoc, H. Qed.

Lemma low6_range (s : Z) : 0 <= Z.land s 0x3F < 0 + Z.of_nat 64.
Proof.
  change 0x3F with (Z.ones 6).
  rewrite Z.land_ones by lia.
  pose proof (Z.mod_pos_bound s (2 ^ 6) ltac:(lia)).
  simpl in *; lia.
Qed.

Lemma nonzero_true (z : Z) : z <> 0 -> FEnv.nonzero z = true.
Proof.
  intros H. unfold FEnv.nonzero.
  now apply negb_true_iff, Z.eqb_neq.
Qed.

(** The status value of any argument fits the six flag bits. *)
Lemma status_value_six_bits (excepts : Z) :
  Z.land (get_status_value_for_except excepts) (Z.ones 6)
  = get_status_value_for_except excepts.
Proof.
  unfold FEnv.get_status_value_for_except.
  destruct FE_DENORM;
    repeat match goal with
           | |- context [FEnv.nonzero ?z] => destruct (FEnv.nonzero z)
           end; reflexivity.
Qed.

Ltac split_pairs :=
  repeat match goal with
         | H : ForallOrdPairs _ (_ :: _) |- _ => inversion H; clear H; subst
         | H : ForallOrdPairs _ [] |- _ => clear H
         | H : Forall _ (_ :: _) |- _ => inversion H; clear H; subst
         | H : Forall _ [] |- _ => clear H
         end.

Lemma land_ite (b : bool) (M K : Z) :
  Z.land (if b then M else 0) K = if b then Z.land M K else 0.
Proof. destruct b; [reflexivity|apply Z.land_0_l]. Qed.

Lemma ite_zero (b : bool) : (if b then 0 else 0) = 0.
Proof. destruct b; reflexivity. Qed.

Lemma nonzero_ite (b : bool) (M : Z) :
  M <> 0 -> FEnv.nonzero (if b then M else 0) = b.
Proof.
  intros H; destruct b; [now apply nonzero_true|reflexivity].
Qed.

(** One macro against the union of all: only its own flag decides. *)
Ltac macro_tests :=
  rewrite ?Z.land_lor_distr_l, ?land_ite, ?Z.land_0_l;
  repeat match goal with
         | H : Z.land ?a ?b = 0 |- _ =>
             first [ rewrite H | rewrite (Z.land_comm b a), H ]
         end;
  rewrite ?Z.land_diag, ?ite_zero, ?Z.lor_0_l, ?Z.lor_0_r;
  repeat match goal with
         | H : ?M <> 0 |- context [FEnv.nonzero (if ?b then ?M else 0)] =>
             rewrite (nonzero_ite b M H)
         end.

Lemma status_of_macro (s : Z) :
  separate_macros ->
  get_status_value_for_except (exception_status_to_macro s)
  = Z.land s supported_flags.
Proof.
  intros [Hnz Hdisj].
  unfold FEnv.separate_macros, FEnv.except_macros in *.
  unfold FEnv.get_status_value_for_except, FEnv.exception_status_to_macro,
    FEnv.supported_flags.
  destruct FE_DENORM as [d|]; cbn [app] in Hnz, Hdisj; split_pairs;
    macro_tests;
    try rewrite (land_low6 s 0x3D) by reflexivity;
    try rewrite (land_low6 s FEnv.ExceptionFlags.DENORMAL_F) by reflexivity;
    rewrite (land_low6 s FEnv.ExceptionFlags.INVALID_F),
      (land_low6 s FEnv.ExceptionFlags.DIV_BY_ZERO_F),
      (land_low6 s FEnv.ExceptionFlags.OVERFLOW_F),
      (land_low6 s FEnv.ExceptionFlags.UNDERFLOW_F),
      (land_low6 s FEnv.ExceptionFlags.INEXACT_F) by reflexivity;
    pose proof (low6_range s) as Hx;
    generalize dependent (Z.land s 0x3F); intros x Hx;
    (destruct x as [|p|p]; [ | |lia]);
    [|do 6 (try destruct p as [p|p|]); try lia..];
    reflexivity.
Qed.

Ltac fenv_unfold :=
  cbv [FEnv.get_except
       FEnv.clear_except FEnv.test_except FEnv.set_except
       FEnv.get_env FEnv.set_env
       FEnv.get_x87_control_word
       FEnv.get_x87_status_word FEnv.get_mxcsr FEnv.write_mxcsr
       FEnv.get_x87_state_descriptor FEnv.write_x87_state_descriptor
       FEnv.with_control_word FEnv.with_status_word FEnv.with_rest
       FEnv.X87 FEnv.MXCSR FEnv.control_word FEnv.status_word FEnv.rest
       FEnv.unused1 FEnv.unused2 FEnv.x87_status FEnv.mxcsr
       FEnv.MXCSR_EXCEPTION_CONTOL_BIT_POISTION
       FEnv.MXCSR_ROUNDING_CONTROL_BIT_POSITION
       FEnv.X87_ROUNDING_CONTROL_BIT_POSITION fst snd].

Ltac fenv_bits :=
  rewrite ?uint16_land, ?uint32_land;
  change 0x3F with (Z.ones 6);
  change 0x3 with (Z.ones 2);
  change (Z.shiftl 1 6) with (Z.shiftl (Z.ones 1) 6);
  change (Z.shiftl 1 15) with (Z.shiftl (Z.ones 1) 15);
  Z.bitblast.

Ltac status_bits e :=
  rewrite <- (status_value_six_bits e);
  generalize (get_status_value_for_except e); intros S;
  fenv_bits.

Lemma nonzero_land_lor (a b F : Z) :
  FEnv.nonzero (Z.land (Z.lor a b) F)
  = FEnv.nonzero (Z.land a F) || FEnv.nonzero (Z.land b F).
Proof.
  unfold FEnv.nonzero.
  rewrite Z.land_lor_distr_l, <- negb_andb.
  f_equal.
  destruct (Z.eqb_spec (Z.land a F) 0) as [Ha|Ha];
    destruct (Z.eqb_spec (Z.land b F) 0) as [Hb|Hb]; cbn [andb];
    apply Z.eqb_eq || apply Z.eqb_neq;
    rewrite Z.lor_eq_0_iff; tauto.
Qed.

Lemma ite_orb (p q : bool) (M : Z) :
  (if p || q then M else 0)
  = Z.lor (if p then M else 0) (if q then M else 0).
Proof.
  destruct p, q; cbn [orb];
    rewrite ?Z.lor_diag, ?Z.lor_0_r, ?Z.lor_0_l; reflexivity.
Qed.

Lemma macro_lor (a b : Z) :
  exception_status_to_macro (Z.lor a b)
  = Z.lor (exception_status_to_macro a) (exception_status_to_macro b).
Proof.
  unfold FEnv.exception_status_to_macro.
  rewrite !nonzero_land_lor.
  destruct FE_DENORM; rewrite !ite_orb;
    repeat match goal with
           | |- context [if ?c then ?M else 0] =>
               generalize (if c then M else 0); intro
           end;
    Z.bitblast.
Qed.

Lemma macro_zero : exception_status_to_macro 0 = 0.
Proof.
  unfold FEnv.exception_status_to_macro.
  destruct FE_DENORM; reflexivity.
Qed.

Lemma status_value_supported (excepts : Z) :
  Z.land supported_flags (get_status_value_for_except excepts)
  = get_status_value_for_except excepts.
Proof.
  unfold FEnv.get_status_value_for_except, FEnv.supported_flags.
  destruct FE_DENORM;
    repeat match goal with
           | |- context [FEnv.nonzero ?z] => destruct (FEnv.nonzero z)
           end; reflexivity.
Qed.

(** ** The exception summary *)

Lemma summary_mask :
  0x8080 = Z.lor (Z.shiftl (Z.ones 1) 7) (Z.shiftl (Z.ones 1) 15).
Proof. reflexivity. Qed.

(** The status word read is the one held, but for the two computed bits. *)
Lemma x87_status_word_eq (m : FEnv.Machine) :
  FEnv.x87_status_word m
  = Z.lor (Z.land (FEnv.status_word (FEnv.X87 m)) (Z.lnot 0x8080))
          (Z.land (if FEnv.x87_exception_pending m then 0x8080 else 0)
                  0x8080).
Proof.
  unfold FEnv.x87_status_word.
  destruct (FEnv.x87_exception_pending m); rewrite summary_mask.
  - Z.bitblast.
  - rewrite Z.land_0_l, Z.lor_0_r. reflexivity.
Qed.

(** A read of the status word of a state that is not looked into is some
    word; any other read is the word held and some value of the two
    computed bits. *)
Ltac status_reads :=
  repeat match goal with
         | |- context [FEnv.x87_status_word ?m] =>
             is_var m; generalize (FEnv.x87_status_word m); intro
         end;
  rewrite ?x87_status_word_eq;
  repeat match goal with
         | |- context [if FEnv.x87_exception_pending ?m
                       then 0x8080 else 0] =>
             generalize (if FEnv.x87_exception_pending m
                         then 0x8080 else 0); intro
         end;
  fenv_unfold;
  rewrite ?summary_mask.

Lemma nonzero_eq (a b : Z) : a = b -> FEnv.nonzero a = FEnv.nonzero b.
Proof. now intros ->. Qed.

(** ** Exception masks *)

(** Converting a status value to macros and back gives the status value
    again, restricted to the flags that have a macro; this needs the macros
    of distinct exceptions to share no bit and none of them to be 0. *)
Theorem status_macro_roundtrip (status : Z) :
  separate_macros ->
  get_status_value_for_except (exception_status_to_macro status)
  = Z.land status supported_flags.
Proof. apply status_of_macro. Qed.

Lemma enable_except_eq (excepts : Z) (m : FEnv.Machine) :
  enable_except excepts m
  = if FEnv.x87_exception_pending m then FEnv.FloatingPointException
    else
      FEnv.Returns
        (exception_status_to_macro
           (FEnv.uint16
              (Z.land (Z.lnot (FEnv.control_word (FEnv.X87 m))) 0x3F)),
         {| FEnv.X87 :=
              FEnv.with_control_word
                (FEnv.uint16
                   (Z.land (FEnv.control_word (FEnv.X87 m))
                      (Z.lnot (get_status_value_for_except excepts))))
                (FEnv.X87 m);
            FEnv.MXCSR :=
              FEnv.uint32
                (Z.land (FEnv.MXCSR m)
                   (Z.lnot
                      (Z.shiftl (get_status_value_for_except excepts) 7))) |}).
Proof.
  unfold FEnv.enable_except, FEnv.write_x87_control_word.
  destruct (FEnv.x87_exception_pending m); reflexivity.
Qed.

Lemma disable_except_eq (excepts : Z) (m : FEnv.Machine) :
  disable_except excepts m
  = if FEnv.x87_exception_pending m then FEnv.FloatingPointException
    else
      FEnv.Returns
        (exception_status_to_macro
           (FEnv.uint16
              (Z.land (Z.lnot (FEnv.control_word (FEnv.X87 m))) 0x3F)),
         {| FEnv.X87 :=
              FEnv.with_control_word
                (FEnv.uint16
                   (Z.lor (FEnv.control_word (FEnv.X87 m))
                      (get_status_value_for_except excepts)))
                (FEnv.X87 m);
            FEnv.MXCSR :=
              FEnv.uint32
                (Z.lor (FEnv.MXCSR m)
                   (Z.shiftl (get_status_value_for_except excepts) 7)) |}).
Proof.
  unfold FEnv.disable_except, FEnv.write_x87_control_word.
  destruct (FEnv.x87_exception_pending m); reflexivity.
Qed.

(** What is pending once [enable_except] has cleared mask bits: what was
    pending before, and the raised ones among the newly enabled. *)
Lemma pending_after_enable (sw cw S : Z) :
  Z.land S (Z.ones 6) = S ->
  Z.land (Z.land sw (Z.lnot (FEnv.uint16 (Z.land cw (Z.lnot S))))) 0x3F
  = Z.lor (Z.land (Z.land sw (Z.lnot cw)) 0x3F)
          (Z.land (Z.land sw (Z.lnot 0x8080)) S).
Proof.
  intros <-.
  rewrite summary_mask.
  fenv_bits.
Qed.

Lemma pending_after_disable (sw cw S : Z) :
  Z.land (Z.land sw (Z.lnot cw)) 0x3F = 0 ->
  Z.land (Z.land sw (Z.lnot (FEnv.uint16 (Z.lor cw S)))) 0x3F = 0.
Proof.
  intros H.
  transitivity
    (Z.land (Z.land (Z.land sw (Z.lnot cw)) 0x3F)
       (Z.lnot (FEnv.uint16 (Z.lor cw S)))).
  - fenv_bits.
  - now rewrite H, Z.land_0_l.
Qed.

Lemma pending_false (m : FEnv.Machine) :
  FEnv.x87_exception_pending m = false ->
  Z.land
    (Z.land (FEnv.status_word (FEnv.X87 m))
       (Z.lnot (FEnv.control_word (FEnv.X87 m)))) 0x3F = 0.
Proof.
  unfold FEnv.x87_exception_pending, FEnv.nonzero.
  intros H.
  apply negb_false_iff in H.
  now apply Z.eqb_eq.
Qed.

(** [enable_except] raises the floating-point exception when an x87
    exception is pending and returns otherwise.  After it has returned, the
    exceptions [get_except] reports are those it reported before together
    with the requested ones.  A further call raises the floating-point
    exception when one of the requested exceptions has its x87 flag raised,
    and otherwise returns the previously enabled x87 exceptions together
    with the requested ones. *)
Theorem enable_except_adds (excepts excepts' : Z) (m : FEnv.Machine) :
  match enable_except excepts m with
  | FEnv.FloatingPointException => FEnv.x87_exception_pending m = true
  | FEnv.Returns (old, m1) =>
      FEnv.x87_exception_pending m = false /\
      get_except m1
      = Z.lor (get_except m)
          (exception_status_to_macro (get_status_value_for_except excepts)) /\
      match enable_except excepts' m1 with
      | FEnv.FloatingPointException =>
          FEnv.nonzero
            (Z.land (FEnv.get_x87_status_word m)
               (get_status_value_for_except excepts)) = true
      | FEnv.Returns (old', _) =>
          FEnv.nonzero
            (Z.land (FEnv.get_x87_status_word m)
               (get_status_value_for_except excepts)) = false /\
          old'
          = Z.lor old
              (exception_status_to_macro
                 (get_status_value_for_except excepts))
      end
  end.
Proof.
  rewrite enable_except_eq.
  destruct (FEnv.x87_exception_pending m) eqn:Hp; [reflexivity|].
  split; [reflexivity|].
  split.
  { fenv_unfold; rewrite <- macro_lor; f_equal; status_bits excepts. }
  rewrite enable_except_eq.
  assert (FEnv.x87_exception_pending
            {| FEnv.X87 :=
                 FEnv.with_control_word
                   (FEnv.uint16
                      (Z.land (FEnv.control_word (FEnv.X87 m))
                         (Z.lnot (get_status_value_for_except excepts))))
                   (FEnv.X87 m);
               FEnv.MXCSR :=
                 FEnv.uint32
                   (Z.land (FEnv.MXCSR m)
                      (Z.lnot
                         (Z.shiftl (get_status_value_for_except excepts) 7)))
            |}
          = FEnv.nonzero
              (Z.land (FEnv.get_x87_status_word m)
                 (get_status_value_for_except excepts))) as ->.
  { unfold FEnv.get_x87_status_word, FEnv.x87_status_word.
    rewrite Hp.
    unfold FEnv.x87_exception_pending.
    cbn [FEnv.X87 FEnv.with_control_word FEnv.control_word FEnv.status_word].
    apply nonzero_eq.
    rewrite pending_after_enable by apply status_value_six_bits.
    now rewrite (pending_false m Hp), Z.lor_0_l. }
  destruct (FEnv.nonzero _); [reflexivity|].
  split; [reflexivity|].
  cbn [FEnv.X87 FEnv.with_control_word FEnv.control_word].
  rewrite <- macro_lor; f_equal; status_bits excepts.
Qed.

(** In terms of status flags: [disable_except] and [enable_except] raise
    the floating-point exception when an x87 exception is pending and
    return otherwise.  After [disable_except] has returned none of the
    requested exceptions is among those [get_except] reports and still no
    x87 exception is pending; after [enable_except] has returned all of the
    requested exceptions are among those [get_except] reports. *)
Theorem disable_except_removes (excepts : Z) (m : FEnv.Machine) :
  separate_macros ->
  match disable_except excepts m with
  | FEnv.FloatingPointException => FEnv.x87_exception_pending m = true
  | FEnv.Returns (_, m1) =>
      FEnv.x87_exception_pending m = false /\
      FEnv.x87_exception_pending m1 = false /\
      Z.land (get_status_value_for_except (get_except m1))
             (get_status_value_for_except excepts) = 0
  end /\
  match enable_except excepts m with
  | FEnv.FloatingPointException => FEnv.x87_exception_pending m = true
  | FEnv.Returns (_, m1) =>
      FEnv.x87_exception_pending m = false /\
      Z.land (get_status_value_for_except (get_except m1))
             (get_status_value_for_except excepts)
      = get_status_value_for_except excepts
  end.
Proof.
  intros Hsep.
  rewrite disable_except_eq, enable_except_eq.
  destruct (FEnv.x87_exception_pending m) eqn:Hp; [split; reflexivity|].
  unfold FEnv.get_except.
  rewrite !(status_of_macro _ Hsep).
  rewrite <- !Z.land_assoc, !status_value_supported.
  split; (split; [reflexivity|]); [split|].
  - unfold FEnv.x87_exception_pending, FEnv.nonzero.
    cbn [FEnv.X87 FEnv.with_control_word FEnv.control_word FEnv.status_word].
    rewrite (pending_after_disable _ _ _ (pending_false m Hp)).
    reflexivity.
  - fenv_unfold; status_bits excepts.
  - fenv_unfold; status_bits excepts.
Qed.

(** ** Rounding mode *)

Lemma two_bit_value (b : Z) : 0 <= b < 4 -> Z.land b (Z.ones 2) = b.
Proof.
  intros Hb.
  rewrite Z.land_ones by lia.
  apply Z.mod_small; simpl; lia.
Qed.

Lemma set_round_cases (mode : Z) (m : FEnv.Machine) :
  (set_round mode m = FEnv.Returns (1, m) /\
   mode <> FE_TONEAREST /\ mode <> FE_DOWNWARD /\
   mode <> FE_UPWARD /\ mode <> FE_TOWARDZERO) \/
  exists b,
    0 <= b < 4 /\
    nth_error [FE_TONEAREST; FE_DOWNWARD; FE_UPWARD; FE_TOWARDZERO]
              (Z.to_nat b) = Some mode /\
    set_round mode m =
      if FEnv.x87_exception_pending m then FEnv.FloatingPointException
      else
        FEnv.Returns
          (0,
           {| FEnv.X87 :=
                FEnv.with_control_word
                  (FEnv.uint16
                     (Z.lor
                        (Z.land (FEnv.control_word (FEnv.X87 m))
                                (Z.lnot (Z.shiftl 0x3 10)))
                        (FEnv.uint16 (Z.shiftl b 10))))
                  (FEnv.X87 m);
              FEnv.MXCSR :=
                FEnv.uint32
                  (Z.lor (Z.land (FEnv.MXCSR m) (Z.lnot (Z.shiftl 0x3 13)))
                         (FEnv.uint32 (Z.shiftl b 13))) |}).
Proof.
  unfold FEnv.set_round, FEnv.write_x87_control_word.
  destruct (Z.eqb_spec mode FE_TONEAREST) as [->|H0];
    [right; exists 0; repeat split; try lia;
     destruct (FEnv.x87_exception_pending m); reflexivity|].
  destruct (Z.eqb_spec mode FE_DOWNWARD) as [->|H1];
    [right; exists 1; repeat split; try lia;
     destruct (FEnv.x87_exception_pending m); reflexivity|].
  destruct (Z.eqb_spec mode FE_UPWARD) as [->|H2];
    [right; exists 2; repeat split; try lia;
     destruct (FEnv.x87_exception_pending m); reflexivity|].
  destruct (Z.eqb_spec mode FE_TOWARDZERO) as [->|H3];
    [right; exists 3; repeat split; try lia;
     destruct (FEnv.x87_exception_pending m); reflexivity|].
  left; auto.
Qed.

Lemma get_round_field (mx b : Z) :
  0 <= b < 4 ->
  FEnv.uint16
    (Z.land
       (Z.shiftr
          (FEnv.uint32
             (Z.lor (Z.land mx (Z.lnot (Z.shiftl 0x3 13)))
                    (FEnv.uint32 (Z.shiftl b 13)))) 13) 0x3) = b.
Proof.
  intros Hb.
  rewrite <- (two_bit_value b Hb).
  fenv_bits.
Qed.

(** [set_round] accepts exactly the four rounding macros.  On one of them
    it raises the floating-point exception when an x87 exception is
    pending, and otherwise returns 0 and [get_round] reads the mode back;
    on any other mode it returns 1 and leaves the registers as they
    were. *)
Theorem set_round_get_round (mode : Z) (m : FEnv.Machine) :
  if existsb (Z.eqb mode) [FE_TONEAREST; FE_DOWNWARD; FE_UPWARD; FE_TOWARDZERO]
  then
    match set_round mode m with
    | FEnv.FloatingPointException => FEnv.x87_exception_pending m = true
    | FEnv.Returns (r, m') =>
        FEnv.x87_exception_pending m = false /\ r = 0 /\ get_round m' = mode
    end
  else set_round mode m = FEnv.Returns (1, m).
Proof.
  destruct (set_round_cases mode m)
    as [(Hs & H0 & H1 & H2 & H3) | (b & Hb & Hnth & Hs)].
  - cbn [existsb].
    apply Z.eqb_neq in H0, H1, H2, H3.
    rewrite H0, H1, H2, H3.
    exact Hs.
  - assert (existsb (Z.eqb mode)
              [FE_TONEAREST; FE_DOWNWARD; FE_UPWARD; FE_TOWARDZERO] = true)
      as ->.
    { apply existsb_exists. exists mode. split; [|apply Z.eqb_refl].
      eapply nth_error_In; eassumption. }
    rewrite Hs.
    destruct (FEnv.x87_exception_pending m); [reflexivity|].
    split; [reflexivity|]. split; [reflexivity|].
    unfold FEnv.get_round, FEnv.get_mxcsr.
    cbn [FEnv.MXCSR].
    unfold FEnv.MXCSR_ROUNDING_CONTROL_BIT_POSITION.
    rewrite (get_round_field _ b Hb).
    assert (b = 0 \/ b = 1 \/ b = 2 \/ b = 3) as Hc by lia.
    destruct Hc as [-> | [-> | [-> | ->]]];
      cbn in Hnth; injection Hnth as <-; reflexivity.
Qed.

(** [set_round] raises the floating-point exception only when an x87
    exception is pending and the mode is one of the four macros.  When it
    returns it has changed nothing that the exception functions read: the
    enabled exceptions, the raised flags and the x87 status word are as
    they were, whatever the mode. *)
Theorem set_round_keeps_exceptions (mode excepts : Z) (m : FEnv.Machine) :
  match set_round mode m with
  | FEnv.FloatingPointException =>
      FEnv.x87_exception_pending m = true /\
      existsb (Z.eqb mode)
        [FE_TONEAREST; FE_DOWNWARD; FE_UPWARD; FE_TOWARDZERO] = true
  | FEnv.Returns (_, m') =>
      get_except m' = get_except m /\
      test_except excepts m' = test_except excepts m /\
      FEnv.get_x87_status_word m' = FEnv.get_x87_status_word m
  end.
Proof.
  destruct (set_round_cases mode m)
    as [(Hs & _) | (b & Hb & Hnth & Hs)]; rewrite Hs;
    [repeat split|].
  destruct (FEnv.x87_exception_pending m) eqn:Hp.
  { split; [reflexivity|].
    apply existsb_exists. exists mode. split; [|apply Z.eqb_refl].
    eapply nth_error_In; eassumption. }
  assert (forall mx,
            FEnv.get_x87_status_word
              {| FEnv.X87 :=
                   FEnv.with_control_word
                     (FEnv.uint16
                        (Z.lor
                           (Z.land (FEnv.control_word (FEnv.X87 m))
                                   (Z.lnot (Z.shiftl 0x3 10)))
                           (FEnv.uint16 (Z.shiftl b 10))))
                     (FEnv.X87 m);
                 FEnv.MXCSR := mx |}
            = FEnv.get_x87_status_word m) as Hsw.
  { intros mx.
    unfold FEnv.get_x87_status_word, FEnv.x87_status_word.
    rewrite Hp.
    unfold FEnv.x87_exception_pending.
    cbn [FEnv.X87 FEnv.with_control_word FEnv.control_word FEnv.status_word].
    replace (Z.land (Z.land (FEnv.status_word (FEnv.X87 m)) _) 0x3F)
      with (Z.land
              (Z.land (FEnv.status_word (FEnv.X87 m))
                 (Z.lnot (FEnv.control_word (FEnv.X87 m)))) 0x3F)
      by (rewrite <- (two_bit_value b Hb); fenv_bits).
    rewrite (pending_false m Hp).
    reflexivity. }
  split; [|split].
  - fenv_unfold; f_equal; rewrite <- (two_bit_value b Hb); fenv_bits.
  - unfold FEnv.test_except.
    rewrite Hsw.
    generalize (FEnv.get_x87_status_word m); intros W.
    fenv_unfold; f_equal; rewrite <- (two_bit_value b Hb).
    status_bits excepts.
  - apply Hsw.
Qed.

(** ** Exception flags *)

(** After [set_except] the requested exceptions all test as raised, and
    after [clear_except] none of them does; both return 0. *)
Theorem set_except_test_clear (excepts : Z) (m : FEnv.Machine) :
  fst (set_except excepts m) = 0 /\
  test_except excepts (snd (set_except excepts m))
  = exception_status_to_macro (get_status_value_for_except excepts) /\
  fst (clear_except excepts m) = 0 /\
  test_except excepts (snd (clear_except excepts m)) = 0.
Proof.
  split; [reflexivity|].
  split; [fenv_unfold; f_equal; status_reads; status_bits excepts|].
  split; [reflexivity|].
  transitivity (exception_status_to_macro 0); [|apply macro_zero].
  fenv_unfold; f_equal; status_reads; status_bits excepts.
Qed.

(** [set_except] and [clear_except] touch the flags only: the x87 control
    word, the rounding mode and the enabled exceptions are afterwards what
    they were before. *)
Theorem except_flags_keep_control (excepts : Z) (m : FEnv.Machine) :
  (FEnv.get_x87_control_word (snd (set_except excepts m))
   = FEnv.get_x87_control_word m /\
   get_round (snd (set_except excepts m)) = get_round m /\
   get_except (snd (set_except excepts m)) = get_except m) /\
  (FEnv.get_x87_control_word (snd (clear_except excepts m))
   = FEnv.get_x87_control_word m /\
   get_round (snd (clear_except excepts m)) = get_round m /\
   get_except (snd (clear_except excepts m)) = get_except m).
Proof.
  unfold FEnv.get_round.
  split; (split; [reflexivity|]); split; fenv_unfold;
    match goal with
    | |- (if ?a =? _ then _ else _) = (if ?b =? _ then _ else _) =>
        replace a with b; [reflexivity|]
    | |- _ => f_equal
    end; status_bits excepts.
Qed.

(** ** Saving and restoring the environment *)

(** What is pending depends on the six flags and the six mask bits only. *)
Lemma pending_flags_masks (m1 m2 : FEnv.Machine) :
  Z.land (FEnv.status_word (FEnv.X87 m1)) 0x3F
  = Z.land (FEnv.status_word (FEnv.X87 m2)) 0x3F ->
  Z.land (FEnv.control_word (FEnv.X87 m1)) 0x3F
  = Z.land (FEnv.control_word (FEnv.X87 m2)) 0x3F ->
  FEnv.x87_exception_pending m1 = FEnv.x87_exception_pending m2.
Proof.
  intros Hs Hc.
  unfold FEnv.x87_exception_pending.
  apply nonzero_eq.
  transitivity
    (Z.land (Z.land (FEnv.status_word (FEnv.X87 m1)) 0x3F)
       (Z.lnot (Z.land (FEnv.control_word (FEnv.X87 m1)) 0x3F)));
    [change 0x3F with (Z.ones 6); Z.bitblast|].
  rewrite Hs, Hc.
  change 0x3F with (Z.ones 6); Z.bitblast.
Qed.

Lemma status_word_of_pending (m : FEnv.Machine) (b : bool) :
  FEnv.x87_exception_pending m = b ->
  FEnv.get_x87_status_word m
  = Z.lor (Z.land (FEnv.status_word (FEnv.X87 m)) (Z.lnot 0x8080))
          (Z.land (if b then 0x8080 else 0) 0x8080).
Proof.
  intros <-.
  apply x87_status_word_eq.
Qed.

(** [set_env] of an environment saved by [get_env] restores the x87 control
    word, MXCSR and the six exception flags, whatever happened to the
    registers in between, and with them what is pending and the two status
    bits the processor computes from it.  Bits 6 and 8 to 14 of the x87
    status word are not restored but kept as they are at the time of the
    call.  Rounding mode, enabled exceptions and raised flags are therefore
    those of the time of [get_env]. *)
Theorem set_env_restores (m m2 : FEnv.Machine) (excepts : Z) :
  let saved := snd (fst (FEnv.get_env m)) in
  let m3 := snd (set_env (FEnv.fenv_at saved) m2) in
  fst (fst (FEnv.get_env m)) = 0 /\
  fst (set_env (FEnv.fenv_at saved) m2) = 0 /\
  FEnv.get_x87_control_word m3 = FEnv.get_x87_control_word m /\
  FEnv.MXCSR m3 = FEnv.MXCSR m /\
  FEnv.x87_exception_pending m3 = FEnv.x87_exception_pending m /\
  Z.land (FEnv.get_x87_status_word m3) 0x80BF
  = Z.land (FEnv.get_x87_status_word m) 0x80BF /\
  Z.land (FEnv.get_x87_status_word m3) 0x7F40
  = Z.land (FEnv.get_x87_status_word m2) 0x7F40 /\
  get_round m3 = get_round m /\
  get_except m3 = get_except m /\
  test_except excepts m3 = test_except excepts m.
Proof.
  cbv zeta.
  assert (FEnv.x87_exception_pending
            (snd (set_env (FEnv.fenv_at (snd (fst (FEnv.get_env m)))) m2))
          = FEnv.x87_exception_pending m) as Hp.
  { apply pending_flags_masks; [|reflexivity].
    fenv_unfold.
    rewrite (x87_status_word_eq m).
    status_reads; fenv_bits. }
  repeat (split; [try reflexivity|]).
  - exact Hp.
  - rewrite (status_word_of_pending _ _ Hp),
      (status_word_of_pending m _ eq_refl).
    fenv_unfold.
    rewrite (x87_status_word_eq m).
    status_reads.
    change 0x80BF
      with (Z.lor (Z.ones 6)
              (Z.lor (Z.shiftl (Z.ones 1) 7) (Z.shiftl (Z.ones 1) 15))).
    fenv_bits.
  - rewrite (status_word_of_pending _ _ Hp).
    fenv_unfold; status_reads.
    change 0x7F40
      with (Z.lor (Z.shiftl (Z.ones 1) 6) (Z.shiftl (Z.ones 7) 8)).
    fenv_bits.
  - unfold FEnv.test_except.
    rewrite (status_word_of_pending _ _ Hp),
      (status_word_of_pending m _ eq_refl).
    fenv_unfold.
    rewrite (x87_status_word_eq m).
    f_equal; status_reads; status_bits excepts.
Qed.

Lemma set_env_default_mxcsr (m : FEnv.Machine) :
  FEnv.MXCSR (snd (set_env FEnv.FE_DFL_ENV m))
  = Z.lor (Z.land (FEnv.uint32 (FEnv.MXCSR m)) (Z.shiftl (Z.ones 16) 16))
          (Z.shiftl (Z.ones 6) 7).
Proof. fenv_unfold; fenv_bits. Qed.

Lemma set_env_default_status_word (m : FEnv.Machine) :
  FEnv.status_word (FEnv.X87 (snd (set_env FEnv.FE_DFL_ENV m)))
  = FEnv.uint16 (Z.land (FEnv.x87_status_word m) (Z.lnot 0x3F)).
Proof. reflexivity. Qed.

(** [set_env] of the default environment leaves every x87 exception masked,
    round-to-nearest and extended precision in the control word, the six
    flags clear and so nothing pending, bits 6 and 8 to 14 of the x87
    status word as they were, and 0x1F80 in the low half of MXCSR: the
    rounding mode reads as [FE_TONEAREST], no exception is enabled and none
    tests as raised. *)
Theorem set_env_default (m : FEnv.Machine) (excepts : Z) :
  let m' := snd (set_env FEnv.FE_DFL_ENV m) in
  fst (set_env FEnv.FE_DFL_ENV m) = 0 /\
  Z.land (FEnv.get_x87_control_word m') 0xF3F = 0x33F /\
  Z.land (FEnv.get_x87_status_word m') 0x80BF = 0 /\
  Z.land (FEnv.get_x87_status_word m') 0x7F40
  = Z.land (FEnv.get_x87_status_word m) 0x7F40 /\
  FEnv.uint16 (FEnv.MXCSR m') = 0x1F80 /\
  get_round m' = FE_TONEAREST /\
  get_except m' = 0 /\
  test_except excepts m' = 0.
Proof.
  cbv zeta.
  assert (FEnv.x87_exception_pending (snd (set_env FEnv.FE_DFL_ENV m))
          = false) as Hp.
  { unfold FEnv.x87_exception_pending, FEnv.nonzero.
    apply negb_false_iff, Z.eqb_eq.
    rewrite set_env_default_status_word.
    generalize (FEnv.x87_status_word m); intros W.
    fenv_unfold; fenv_bits. }
  split; [reflexivity|].
  split.
  { fenv_unfold.
    change 0xF3F with (Z.lor (Z.ones 6) (Z.shiftl (Z.ones 4) 8)).
    change 0x33F with (Z.lor (Z.ones 6) (Z.shiftl (Z.ones 2) 8)).
    fenv_bits. }
  split.
  { rewrite (status_word_of_pending _ _ Hp), set_env_default_status_word.
    rewrite Z.land_0_l, Z.lor_0_r.
    generalize (FEnv.x87_status_word m); intros W.
    rewrite summary_mask.
    change 0x80BF
      with (Z.lor (Z.ones 6)
              (Z.lor (Z.shiftl (Z.ones 1) 7) (Z.shiftl (Z.ones 1) 15))).
    fenv_bits. }
  split.
  { rewrite (status_word_of_pending _ _ Hp), set_env_default_status_word.
    rewrite Z.land_0_l, Z.lor_0_r.
    unfold FEnv.get_x87_status_word.
    generalize (FEnv.x87_status_word m); intros W.
    rewrite summary_mask.
    change 0x7F40
      with (Z.lor (Z.shiftl (Z.ones 1) 6) (Z.shiftl (Z.ones 7) 8)).
    fenv_bits. }
  split.
  { rewrite set_env_default_mxcsr.
    change 0x1F80 with (Z.shiftl (Z.ones 6) 7).
    fenv_bits. }
  split.
  { unfold FEnv.get_round, FEnv.get_mxcsr.
    rewrite set_env_default_mxcsr.
    match goal with
    | |- (if ?a =? _ then _ else _) = _ => replace a with 0; [reflexivity|]
    end.
    fenv_unfold; fenv_bits. }
  split.
  - transitivity (exception_status_to_macro 0); [|apply macro_zero].
    unfold FEnv.get_except, FEnv.get_mxcsr.
    rewrite set_env_default_mxcsr.
    f_equal; fenv_bits.
  - transitivity (exception_status_to_macro 0); [|apply macro_zero].
    unfold FEnv.test_except, FEnv.get_mxcsr.
    rewrite (status_word_of_pending _ _ Hp), set_env_default_status_word,
      set_env_default_mxcsr.
    rewrite Z.land_0_l, Z.lor_0_r.
    generalize (FEnv.x87_status_word m); intros W.
    rewrite summary_mask.
    f_equal; status_bits excepts.
Qed.

End FEnvFacts.

(** ** The Windows environment words *)

Lemma all_from_spec (fuel : nat) (z : Z) (P : Z -> bool) :
  all_from fuel z P = true ->
  forall x, z <= x < z + Z.of_nat fuel -> P x = true.
Proof.
  revert z.
  induction fuel as [|fuel IH]; intros z H x Hx; [lia|].
  cbn [all_from] in H.
  apply andb_prop in H as [Hz Hrest].
  destruct (Z.eq_dec x z) as [->|Hne]; [assumption|].
  apply (IH (z + 1) Hrest); lia.
Qed.

(** Every value of the six flag bits: loading the stored status word gives
    the flags back, and its two copies agree. *)
Lemma windows_flags_ok_all :
  all_from 64 0
    (fun a =>
       (windows_mxcsr_of
          (windows_state 0 (FEnv.Windows.status_word (windows_env_of a)))
        =? a)
       && windows_copies_ok
            (windows_state 0 (FEnv.Windows.status_word (windows_env_of a))))
  = true.
Proof. vm_compute; reflexivity. Qed.

(** Every value of the ten bits above the flags: loading the stored control
    word gives them back, and its copies agree. *)
Lemma windows_control_ok_all :
  all_from 1024 0
    (fun k =>
       (windows_mxcsr_of
          (windows_state
             (FEnv.Windows.control_word (windows_env_of (64 * k))) 0)
        =? 64 * k)
       && windows_copies_ok
            (windows_state
               (FEnv.Windows.control_word (windows_env_of (64 * k))) 0))
  = true.
Proof. vm_compute; reflexivity. Qed.

Lemma land_within (z G K : Z) :
  Z.land G K = K -> Z.land z K = Z.land (Z.land z G) K.
Proof. intros H. now rewrite <- Z.land_assoc, H. Qed.

Lemma windows_status_word_flag_bits (mx : Z) :
  FEnv.Windows.status_word (windows_env_of mx)
  = FEnv.Windows.status_word (windows_env_of (flag_bits mx)).
Proof.
  unfold windows_env_of, FEnv.Windows.get_env, FEnv.get_mxcsr.
  cbn [fst snd FEnv.MXCSR FEnv.Windows.status_word].
  repeat match goal with
         | |- context [Z.land mx ?K] =>
             rewrite (land_within mx 0x3F K) by reflexivity;
             fold (flag_bits mx)
         end.
  reflexivity.
Qed.

Lemma windows_control_word_control_bits (mx : Z) :
  FEnv.Windows.control_word (windows_env_of mx)
  = FEnv.Windows.control_word (windows_env_of (control_bits mx)).
Proof.
  unfold windows_env_of, FEnv.Windows.get_env, FEnv.get_mxcsr.
  cbn [fst snd FEnv.MXCSR FEnv.Windows.control_word].
  repeat match goal with
         | |- context [Z.land mx ?K] =>
             rewrite (land_within mx 0xFFC0 K) by reflexivity;
             fold (control_bits mx)
         end.
  reflexivity.
Qed.

(** The value loaded is the union of what the status word gives and what
    the control word gives. *)
Lemma windows_mxcsr_split (cw sw : Z) :
  windows_mxcsr_of (windows_state cw sw)
  = Z.lor (windows_mxcsr_of (windows_state 0 sw))
          (windows_mxcsr_of (windows_state cw 0)).
Proof.
  unfold windows_mxcsr_of, windows_state, FEnv.Windows.set_env,
    FEnv.write_mxcsr.
  cbn [snd FEnv.MXCSR FEnv.Windows.control_word FEnv.Windows.status_word].
  repeat match goal with
         | |- context [FEnv.uint16 ?t] =>
             lazymatch t with
             | context [cw] => generalize (FEnv.uint16 t); intro
             | context [sw] => generalize (FEnv.uint16 t); intro
             | _ => change (FEnv.uint16 t) with 0
             end
         end.
  Z.bitblast.
Qed.

Lemma flag_bits_range (mx : Z) : 0 <= flag_bits mx < 0 + Z.of_nat 64.
Proof.
  unfold flag_bits.
  change 0x3F with (Z.ones 6).
  rewrite Z.land_ones by lia.
  pose proof (Z.mod_pos_bound mx (2 ^ 6) ltac:(lia)).
  change (2 ^ 6) with 64 in *; lia.
Qed.

Lemma control_bits_multiple (mx : Z) :
  control_bits mx = 64 * Z.land (Z.shiftr mx 6) (Z.ones 10) /\
  0 <= Z.land (Z.shiftr mx 6) (Z.ones 10) < 0 + Z.of_nat 1024.
Proof.
  split.
  - unfold control_bits.
    change 0xFFC0 with (Z.shiftl (Z.ones 10) 6).
    rewrite Z.mul_comm.
    change 64 with (2 ^ 6).
    rewrite <- Z.shiftl_mul_pow2 by lia.
    Z.bitblast.
  - rewrite Z.land_ones by lia.
    pose proof (Z.mod_pos_bound (Z.shiftr mx 6) (2 ^ 10) ltac:(lia)).
    change (2 ^ 10) with 1024 in *; lia.
Qed.

Lemma flag_control_bits (mx : Z) :
  Z.lor (flag_bits mx) (control_bits mx) = FEnv.uint16 mx.
Proof.
  unfold flag_bits, control_bits, FEnv.uint16.
  rewrite <- Z.land_ones by lia.
  change 0x3F with (Z.ones 6).
  change 0xFFC0 with (Z.shiftl (Z.ones 10) 6).
  Z.bitblast.
Qed.

Lemma windows_flags_ok (mx : Z) :
  windows_mxcsr_of
    (windows_state 0 (FEnv.Windows.status_word (windows_env_of mx)))
  = flag_bits mx /\
  windows_copies_ok
    (windows_state 0 (FEnv.Windows.status_word (windows_env_of mx))) = true.
Proof.
  rewrite windows_status_word_flag_bits.
  pose proof (all_from_spec _ _ _ windows_flags_ok_all _ (flag_bits_range mx))
    as H.
  cbv beta in H.
  apply andb_prop in H as [H1 H2].
  apply Z.eqb_eq in H1.
  split; assumption.
Qed.

Lemma windows_control_ok (mx : Z) :
  windows_mxcsr_of
    (windows_state (FEnv.Windows.control_word (windows_env_of mx)) 0)
  = control_bits mx /\
  windows_copies_ok
    (windows_state (FEnv.Windows.control_word (windows_env_of mx)) 0) = true.
Proof.
  rewrite windows_control_word_control_bits.
  destruct (control_bits_multiple mx) as [-> Hk].
  pose proof (all_from_spec _ _ _ windows_control_ok_all _ Hk) as H.
  cbv beta in H.
  apply andb_prop in H as [H1 H2].
  apply Z.eqb_eq in H1.
  split; assumption.
Qed.

Lemma windows_mxcsr_of_eq (st : FEnv.Windows.FPState) (m' : FEnv.Machine) :
  FEnv.MXCSR (snd (FEnv.Windows.set_env st m')) = windows_mxcsr_of st.
Proof.
  unfold windows_mxcsr_of, FEnv.Windows.set_env, FEnv.write_mxcsr.
  cbn [snd FEnv.MXCSR].
  reflexivity.
Qed.

Lemma windows_env_of_eq (m : FEnv.Machine) :
  snd (fst (FEnv.Windows.get_env m)) = windows_env_of (FEnv.MXCSR m).
Proof.
  unfold windows_env_of, FEnv.Windows.get_env, FEnv.get_mxcsr.
  cbn [fst snd FEnv.MXCSR].
  reflexivity.
Qed.

Lemma windows_copies_control (cw : Z) :
  windows_copies_ok (windows_state cw 0) = true ->
  Z.land (Z.shiftr cw 24) 0x3F = Z.land cw 0x3F /\
  Z.land (Z.shiftr cw 30) 0x3 = Z.land (Z.shiftr cw 8) 0x3.
Proof.
  unfold windows_copies_ok, windows_state.
  cbn [FEnv.Windows.control_word FEnv.Windows.status_word].
  intros H.
  apply andb_prop in H as [H _].
  apply andb_prop in H as [H1 H2].
  apply Z.eqb_eq in H1, H2.
  split; assumption.
Qed.

Lemma windows_copies_status (sw : Z) :
  windows_copies_ok (windows_state 0 sw) = true ->
  Z.land (Z.shiftr sw 24) 0x3F = Z.land sw 0x3F.
Proof.
  unfold windows_copies_ok, windows_state.
  cbn [FEnv.Windows.control_word FEnv.Windows.status_word].
  intros H.
  apply andb_prop in H as [_ H].
  now apply Z.eqb_eq in H.
Qed.

(** The Windows [get_env] stores words from which [set_env] rebuilds the
    sixteen defined bits of MXCSR exactly; in the stored words the
    exception bits of the high byte repeat those of the low byte, and the
    rounding mode in bits 30-31 repeats bits 8-9. *)
Theorem windows_env_roundtrip (m m' : FEnv.Machine) :
  let st := snd (fst (FEnv.Windows.get_env m)) in
  let cw := FEnv.Windows.control_word st in
  let sw := FEnv.Windows.status_word st in
  FEnv.MXCSR (snd (FEnv.Windows.set_env st m')) = FEnv.uint16 (FEnv.MXCSR m) /\
  Z.land (Z.shiftr cw 24) 0x3F = Z.land cw 0x3F /\
  Z.land (Z.shiftr cw 30) 0x3 = Z.land (Z.shiftr cw 8) 0x3 /\
  Z.land (Z.shiftr sw 24) 0x3F = Z.land sw 0x3F /\
  snd (FEnv.Windows.get_env m) = m.
Proof.
  cbv zeta.
  rewrite windows_mxcsr_of_eq, !windows_env_of_eq.
  destruct (windows_flags_ok (FEnv.MXCSR m)) as [Hf Hfc].
  destruct (windows_control_ok (FEnv.MXCSR m)) as [Hc Hcc].
  apply windows_copies_control in Hcc as [Hc1 Hc2].
  apply windows_copies_status in Hfc.
  split; [|split; [exact Hc1|split; [exact Hc2|split; [exact Hfc|reflexivity]]]].
  rewrite <- flag_control_bits, <- Hf, <- Hc.
  generalize (windows_env_of (FEnv.MXCSR m)); intros [cw sw].
  apply windows_mxcsr_split.
Qed.

Lemma land_mask (s M K : Z) :
  Z.land M K = K -> Z.land (Z.land s M) K = Z.land s K.
Proof. intros H. now rewrite <- Z.land_assoc, H. Qed.

(** The Windows [set_env] reads the high byte of the status word and, of
    the control word, the high byte and bits 10 and 11 only: the copies in
    the low bytes do not matter. *)
Theorem windows_set_env_high_bits (st : FEnv.Windows.FPState)
    (m : FEnv.Machine) :
  FEnv.Windows.set_env st m
  = FEnv.Windows.set_env
      {| FEnv.Windows.control_word :=
           Z.land (FEnv.Windows.control_word st) 0xFF000C00;
         FEnv.Windows.status_word :=
           Z.land (FEnv.Windows.status_word st) 0x3F000000 |} m.
Proof.
  unfold FEnv.Windows.set_env.
  cbn [FEnv.Windows.control_word FEnv.Windows.status_word].
  repeat match goal with
         | |- context [Z.land (Z.land ?s ?M) ?K] =>
             rewrite (land_mask s M K) by reflexivity
         end.
  reflexivity.
Qed.

(** ** The statements with the sample macro values *)

Lemma SampleFEnv_separate_macros :
  FEnv.separate_macros SampleFEnv.FE_INVALID SampleFEnv.FE_DIVBYZERO
    SampleFEnv.FE_OVERFLOW SampleFEnv.FE_UNDERFLOW SampleFEnv.FE_INEXACT
    SampleFEnv.FE_DENORM.
Proof.
  split; repeat (constructor || discriminate).
Qed.

Lemma status_macro_roundtrip_example :
  FEnv.get_status_value_for_except SampleFEnv.FE_INVALID
    SampleFEnv.FE_DIVBYZERO SampleFEnv.FE_OVERFLOW SampleFEnv.FE_UNDERFLOW
    SampleFEnv.FE_INEXACT SampleFEnv.FE_DENORM
    (FEnv.exception_status_to_macro SampleFEnv.FE_INVALID
       SampleFEnv.FE_DIVBYZERO SampleFEnv.FE_OVERFLOW SampleFEnv.FE_UNDERFLOW
       SampleFEnv.FE_INEXACT SampleFEnv.FE_DENORM 0xFFE5)
  = Z.land 0xFFE5 (FEnv.supported_flags SampleFEnv.FE_DENORM).
Proof.
  apply (status_macro_roundtrip SampleFEnv.FE_INVALID SampleFEnv.FE_DIVBYZERO
           SampleFEnv.FE_OVERFLOW SampleFEnv.FE_UNDERFLOW
           SampleFEnv.FE_INEXACT SampleFEnv.FE_DENORM 0xFFE5).
  exact SampleFEnv_separate_macros.
Defined.

Lemma disable_except_removes_example :
  match
    FEnv.disable_except SampleFEnv.FE_INVALID SampleFEnv.FE_DIVBYZERO
      SampleFEnv.FE_OVERFLOW SampleFEnv.FE_UNDERFLOW SampleFEnv.FE_INEXACT
      SampleFEnv.FE_DENORM 0x0C SampleFEnv.reset_state
  with
  | FEnv.FloatingPointException =>
      FEnv.x87_exception_pending SampleFEnv.reset_state = true
  | FEnv.Returns (_, m1) =>
      FEnv.x87_exception_pending SampleFEnv.reset_state = false /\
      FEnv.x87_exception_pending m1 = false /\
      Z.land
        (FEnv.get_status_value_for_except SampleFEnv.FE_INVALID
           SampleFEnv.FE_DIVBYZERO SampleFEnv.FE_OVERFLOW
           SampleFEnv.FE_UNDERFLOW SampleFEnv.FE_INEXACT SampleFEnv.FE_DENORM
           (FEnv.get_except SampleFEnv.FE_INVALID SampleFEnv.FE_DIVBYZERO
              SampleFEnv.FE_OVERFLOW SampleFEnv.FE_UNDERFLOW
              SampleFEnv.FE_INEXACT SampleFEnv.FE_DENORM m1))
        (FEnv.get_status_value_for_except SampleFEnv.FE_INVALID
           SampleFEnv.FE_DIVBYZERO SampleFEnv.FE_OVERFLOW
           SampleFEnv.FE_UNDERFLOW SampleFEnv.FE_INEXACT SampleFEnv.FE_DENORM
           0x0C) = 0
  end /\
  match
    FEnv.enable_except SampleFEnv.FE_INVALID SampleFEnv.FE_DIVBYZERO
      SampleFEnv.FE_OVERFLOW SampleFEnv.FE_UNDERFLOW SampleFEnv.FE_INEXACT
      SampleFEnv.FE_DENORM 0x0C SampleFEnv.reset_state
  with
  | FEnv.FloatingPointException =>
      FEnv.x87_exception_pending SampleFEnv.reset_state = true
  | FEnv.Returns (_, m1) =>
      FEnv.x87_exception_pending SampleFEnv.reset_state = false /\
      Z.land
        (FEnv.get_status_value_for_except SampleFEnv.FE_INVALID
           SampleFEnv.FE_DIVBYZERO SampleFEnv.FE_OVERFLOW
           SampleFEnv.FE_UNDERFLOW SampleFEnv.FE_INEXACT SampleFEnv.FE_DENORM
           (FEnv.get_except SampleFEnv.FE_INVALID SampleFEnv.FE_DIVBYZERO
              SampleFEnv.FE_OVERFLOW SampleFEnv.FE_UNDERFLOW
              SampleFEnv.FE_INEXACT SampleFEnv.FE_DENORM m1))
        (FEnv.get_status_value_for_except SampleFEnv.FE_INVALID
           SampleFEnv.FE_DIVBYZERO SampleFEnv.FE_OVERFLOW
           SampleFEnv.FE_UNDERFLOW SampleFEnv.FE_INEXACT SampleFEnv.FE_DENORM
           0x0C)
      = FEnv.get_status_value_for_except SampleFEnv.FE_INVALID
          SampleFEnv.FE_DIVBYZERO SampleFEnv.FE_OVERFLOW
          SampleFEnv.FE_UNDERFLOW SampleFEnv.FE_INEXACT SampleFEnv.FE_DENORM
          0x0C
  end.
Proof.
  apply (disable_except_removes SampleFEnv.FE_INVALID SampleFEnv.FE_DIVBYZERO
           SampleFEnv.FE_OVERFLOW SampleFEnv.FE_UNDERFLOW
           SampleFEnv.FE_INEXACT SampleFEnv.FE_DENORM 0x0C
           SampleFEnv.reset_state).
  exact SampleFEnv_separate_macros.
Defined.

(** An exception enabled and then raised with [set_except] is pending:
    the status word shows the two summary bits, [set_round] raises the
    floating-point exception, and once [clear_except] has cleared the flag
    [set_round] returns. *)
Example pending_exception_example :
  match
    FEnv.enable_except SampleFEnv.FE_INVALID SampleFEnv.FE_DIVBYZERO
      SampleFEnv.FE_OVERFLOW SampleFEnv.FE_UNDERFLOW SampleFEnv.FE_INEXACT
      SampleFEnv.FE_DENORM SampleFEnv.FE_INVALID SampleFEnv.reset_state
  with
  | FEnv.FloatingPointException => False
  | FEnv.Returns (_, m1) =>
      let m2 :=
        snd (FEnv.set_except SampleFEnv.fldenv_image SampleFEnv.FE_INVALID
               SampleFEnv.FE_DIVBYZERO SampleFEnv.FE_OVERFLOW
               SampleFEnv.FE_UNDERFLOW SampleFEnv.FE_INEXACT
               SampleFEnv.FE_DENORM SampleFEnv.FE_INVALID m1) in
      let m3 :=
        snd (FEnv.clear_except SampleFEnv.fldenv_image SampleFEnv.FE_INVALID
               SampleFEnv.FE_DIVBYZERO SampleFEnv.FE_OVERFLOW
               SampleFEnv.FE_UNDERFLOW SampleFEnv.FE_INEXACT
               SampleFEnv.FE_DENORM SampleFEnv.FE_INVALID m2) in
      FEnv.get_x87_control_word m2 = 0x037E /\
      FEnv.get_x87_status_word m2 = 0x8081 /\
      FEnv.set_round SampleFEnv.FE_TONEAREST SampleFEnv.FE_DOWNWARD
        SampleFEnv.FE_UPWARD SampleFEnv.FE_TOWARDZERO
        SampleFEnv.FE_UPWARD m2 = FEnv.FloatingPointException /\
      FEnv.get_x87_status_word m3 = 0 /\
      exists m4,
        FEnv.set_round SampleFEnv.FE_TONEAREST SampleFEnv.FE_DOWNWARD
          SampleFEnv.FE_UPWARD SampleFEnv.FE_TOWARDZERO
          SampleFEnv.FE_UPWARD m3 = FEnv.Returns (0, m4)
  end.
Proof.
  vm_compute.
  do 4 (split; [reflexivity|]).
  eexists; reflexivity.
Qed.
